(** * burglarAlarm.py: a MicroPython burglar alarm, embedded in Rocq

    Source: [docs/projects/burglarAlarm/burglarAlarm.py].

    The script creates five [machine.Pin] objects (two motion sensors, two
    LEDs, one buzzer), registers [pir_handler] as the rising-edge interrupt
    handler of both sensors and then blinks both LEDs forever.

    The embedding is a state-and-error monad over a [World] that holds the
    heap of Pin objects, the output latch of every GPIO line, the registered
    interrupts, a logical clock in milliseconds and the trace of observable
    events.  The levels of the input lines are not under the program's
    control: they are a function of the line and of the time.

    Modelling choices:
    - time passes in [time.sleep_ms] and [time.sleep] only; every other
      statement is instantaneous on the logical clock;
    - an interrupt runs its handler to completion, between two statements of
      the main loop;
    - a Pin is an object reference; [is] compares references, and two objects
      may drive the same GPIO line;
    - [value()] of an input pin samples the line now, of an output pin it
      returns the latch; an output line is low until first toggled;
    - the endless [while True:] is studied through its finite prefixes. *)

From Stdlib Require Import ZArith String Lia.
From stdpp Require Import base option list gmap strings.

Local Open Scope Z_scope.

(** ** The [machine] module: constants and the configuration of a Pin *)

Module machine.
Inductive mode := IN | OUT.
Inductive pull := PULL_UP | PULL_DOWN.
Inductive trigger := IRQ_FALLING | IRQ_RISING.

(** What [machine.Pin(id, mode, pull)] records about the object. *)
Record pin := mkpin { id : Z; pin_mode : mode; pin_pull : option pull }.
End machine.

#[global] Instance mode_eq_dec : EqDecision machine.mode.
Proof. solve_decision. Defined.
#[global] Instance pull_eq_dec : EqDecision machine.pull.
Proof. solve_decision. Defined.
#[global] Instance trigger_eq_dec : EqDecision machine.trigger.
Proof. solve_decision. Defined.
#[global] Instance pin_eq_dec : EqDecision machine.pin.
Proof. solve_decision. Defined.

(** ** Objects, events and the world *)

(** A Python object reference.  [x is y] compares references. *)
Definition loc := nat.

(** What an outside observer can see the program do. *)
Inductive Event :=
| Sleep (ms : Z)               (* time.sleep_ms(ms) / time.sleep(s) *)
| Read (p : loc) (v : Z)       (* p.value() returned v *)
| Toggle (p : loc) (lvl : bool) (* p.toggle() drove the line to lvl *)
| Print (line : string).       (* print(line) *)

Record World := mkWorld {
  heap  : gmap loc machine.pin;     (* the Pin objects that exist *)
  latch : gmap Z bool;              (* output level of each GPIO line, low when absent *)
  irqs  : gmap loc machine.trigger; (* pins whose handler is pir_handler *)
  next_loc : loc;                   (* next fresh object reference *)
  clock : Z;                        (* milliseconds since power on *)
  input : Z -> Z -> bool;           (* level of an input line at a time *)
  trace : list (Z * Event)          (* events so far, oldest first, with their time *)
}.

(** Output level of GPIO line [g]. *)
Definition level (w : World) (g : Z) : bool := default false (latch w !! g).

Definition emit (e : Event) (w : World) : World :=
  mkWorld (heap w) (latch w) (irqs w) (next_loc w) (clock w) (input w)
          (trace w ++ [(clock w, e)]).

Definition advance (ms : Z) (w : World) : World :=
  mkWorld (heap w) (latch w) (irqs w) (next_loc w) (clock w + ms) (input w)
          (trace w).

Definition set_level (g : Z) (b : bool) (w : World) : World :=
  mkWorld (heap w) (<[g := b]> (latch w)) (irqs w) (next_loc w) (clock w)
          (input w) (trace w).

(** ** The monad: state passing over the world, [None] for a raised exception *)

Definition M (A : Type) : Type := World -> option (A * World).

#[global] Instance M_ret : MRet M := fun A a w => Some (a, w).
#[global] Instance M_bind : MBind M := fun A B f m w =>
  match m w with
  | Some (a, w') => f a w'
  | None => None
  end.

Definition raise {A} : M A := fun _ => None.
Definition get_world : M World := fun w => Some (w, w).
Definition modify (f : World -> World) : M unit := fun w => Some (tt, f w).

(** Final world of a computation, when it does not raise. *)
Definition exec {A} (m : M A) (w : World) : option World := snd <$> m w.

(** [for i in range(n): body i] *)
Fixpoint for_loop (i : nat) (n : nat) (body : nat -> M unit) : M unit :=
  match n with
  | O => mret tt
  | S k => body i;; for_loop (S i) k body
  end.

Definition for_range (n : nat) (body : nat -> M unit) : M unit :=
  for_loop 0 n body.

(** Python truthiness of an int. *)
Definition truthy (v : Z) : bool := negb (v =? 0).

(** ** Library calls used by the script *)

Module Pin.
(** [machine.Pin(id, mode, pull)]: a new object on the heap. *)
Definition new (id : Z) (md : machine.mode) (pl : option machine.pull) : M loc :=
  fun w =>
    let l := next_loc w in
    Some (l, mkWorld (<[l := machine.mkpin id md pl]> (heap w)) (latch w)
                     (irqs w) (S l) (clock w) (input w) (trace w)).

(** The level a pin reads now: the line for an input, the latch for an output. *)
Definition level_of (w : World) (p : machine.pin) : bool :=
  match machine.pin_mode p with
  | machine.IN => input w (machine.id p) (clock w)
  | machine.OUT => level w (machine.id p)
  end.

(** [p.value()]: 1 or 0.  Raises when [p] is not a Pin. *)
Definition value (p : loc) : M Z :=
  w ← get_world;
  match heap w !! p with
  | Some o =>
      let v := Z.b2z (level_of w o) in
      modify (emit (Read p v));; mret v
  | None => raise
  end.

(** [p.toggle()]: inverts the output latch of the pin's line. *)
Definition toggle (p : loc) : M unit :=
  w ← get_world;
  match heap w !! p with
  | Some o =>
      let lvl := negb (level w (machine.id o)) in
      modify (emit (Toggle p lvl));;
      modify (set_level (machine.id o) lvl)
  | None => raise
  end.

(** [p.irq(trigger=t, handler=pir_handler)] *)
Definition irq (p : loc) (t : machine.trigger) : M unit :=
  w ← get_world;
  match heap w !! p with
  | Some _ =>
      modify (fun w => mkWorld (heap w) (latch w) (<[p := t]> (irqs w))
                               (next_loc w) (clock w) (input w) (trace w))
  | None => raise
  end.
End Pin.

Module time.
Definition sleep_ms (ms : Z) : M unit :=
  modify (emit (Sleep ms));; modify (advance ms).

(** [time.sleep(s)] takes seconds. *)
Definition sleep (s : Z) : M unit := sleep_ms (1000 * s).
End time.

Definition print (line : string) : M unit := modify (emit (Print line)).

(** ** The script *)

(** The module's global names, bound once at start-up. *)
Record Globals := mkGlobals {
  snsr_bedroom : loc;
  snsr_living_room : loc;
  led_bedroom : loc;
  led_living_room : loc;
  buzzer : loc
}.

Section Script.
Variable g : Globals.

Definition pir_handler (pin : loc) : M unit :=
  time.sleep_ms 100;;
  v ← Pin.value pin;
  if truthy v then
    if decide (pin = snsr_bedroom g) then
      print "ALARM! Motion detected in bedroom!";;
      for_range 10 (fun i =>
        Pin.toggle (led_bedroom g);;
        Pin.toggle (buzzer g);;
        time.sleep_ms 100)
    else if decide (pin = snsr_living_room g) then
      print "ALARM! Motion detected in living room!";;
      for_range 10 (fun i =>
        Pin.toggle (led_living_room g);;
        Pin.toggle (buzzer g);;
        time.sleep_ms 100)
    else mret tt
  else mret tt.

(** Body of [while True:]. *)
Definition loop_body : M unit :=
  Pin.toggle (led_bedroom g);;
  Pin.toggle (led_living_room g);;
  time.sleep 1.

(** The first [n] iterations of the endless loop. *)
Fixpoint heartbeat (n : nat) : M unit :=
  match n with
  | O => mret tt
  | S k => loop_body;; heartbeat k
  end.
End Script.

(** Module start-up: everything before [while True:]. *)
Definition startup : M Globals :=
  sb ← Pin.new 28 machine.IN (Some machine.PULL_DOWN);
  sl ← Pin.new 18 machine.IN (Some machine.PULL_DOWN);
  lb ← Pin.new 15 machine.OUT None;
  ll ← Pin.new 11 machine.OUT None;
  bz ← Pin.new 14 machine.OUT None;
  Pin.irq sb machine.IRQ_RISING;;
  Pin.irq sl machine.IRQ_RISING;;
  mret (mkGlobals sb sl lb ll bz).

(** The board at power on, before the script runs. *)
Definition power_on (inp : Z -> Z -> bool) : World :=
  mkWorld ∅ ∅ ∅ 0%nat 0 inp [].

(** ** The running program: the main loop and its interrupts

    The main loop executes its three statements in turn; between any two of
    them the hardware may raise the interrupt of a pin, which runs the
    registered handler to completion before the loop continues. *)

Inductive Action :=
| Tick               (* the main loop executes its next statement *)
| Irq (pin : loc).   (* the interrupt of [pin] fires *)

Section Program.
Variable g : Globals.

(** Statement [pc] of the body of [while True:]. *)
Definition loop_stmt (pc : nat) : M unit :=
  match pc with
  | 0%nat => Pin.toggle (led_bedroom g)
  | 1%nat => Pin.toggle (led_living_room g)
  | _ => time.sleep 1
  end.

Definition next_pc (pc : nat) : nat :=
  match pc with 0%nat => 1%nat | 1%nat => 2%nat | _ => 0%nat end.

Definition step (a : Action) (pc : nat) : M nat :=
  match a with
  | Tick => loop_stmt pc;; mret (next_pc pc)
  | Irq pin =>
      w ← get_world;
      match irqs w !! pin with
      | Some _ => pir_handler g pin;; mret pc
      | None => mret pc
      end
  end.

Fixpoint run (sched : list Action) (pc : nat) : M nat :=
  match sched with
  | [] => mret pc
  | a :: rest => pc' ← step a pc; run rest pc'
  end.
End Program.

(** The whole script under a schedule of interrupts. *)
Definition script (sched : list Action) : M nat :=
  g ← startup; run g sched 0%nat.

(** * The vocabulary of the properties *)

(** ** Reading a trace *)

(** Lines printed, in order. *)
Definition prints (tr : list (Z * Event)) : list string :=
  omap (fun te => match te.2 with Print s => Some s | _ => None end) tr.

(** Time and new level of every toggle of pin [p], in order. *)
Definition toggles (p : loc) (tr : list (Z * Event)) : list (Z * bool) :=
  omap (fun te => match te.2 with
                  | Toggle q lvl => if decide (q = p) then Some (te.1, lvl) else None
                  | _ => None
                  end) tr.

(** Every toggle, of any pin: time and pin. *)
Definition all_toggles (tr : list (Z * Event)) : list (Z * loc) :=
  omap (fun te => match te.2 with Toggle q _ => Some (te.1, q) | _ => None end) tr.

(** Every [value()] call: time, pin and result. *)
Definition reads (tr : list (Z * Event)) : list (Z * loc * Z) :=
  omap (fun te => match te.2 with Read q v => Some (te.1, q, v) | _ => None end) tr.

(** The same events with times counted from [t0]. *)
Definition since (t0 : Z) {A} (l : list (Z * A)) : list (Z * A) :=
  map (fun ta => (ta.1 - t0, ta.2)) l.

(** The events added to the trace between [w] and [w']. *)
Definition emitted (w w' : World) : list (Z * Event) :=
  drop (length (trace w)) (trace w').

(** ** The state the script leaves behind at start-up *)

Record booted (g : Globals) (w : World) : Prop := mkBooted {
  bt_snsr_bedroom :
    heap w !! snsr_bedroom g = Some (machine.mkpin 28 machine.IN (Some machine.PULL_DOWN));
  bt_snsr_living_room :
    heap w !! snsr_living_room g = Some (machine.mkpin 18 machine.IN (Some machine.PULL_DOWN));
  bt_led_bedroom :
    heap w !! led_bedroom g = Some (machine.mkpin 15 machine.OUT None);
  bt_led_living_room :
    heap w !! led_living_room g = Some (machine.mkpin 11 machine.OUT None);
  bt_buzzer :
    heap w !! buzzer g = Some (machine.mkpin 14 machine.OUT None)
}.

(** What the pin will read once the debounce delay has passed. *)
Definition debounced (w : World) (pin : loc) : option bool :=
  Pin.level_of (advance 100 w) <$> heap w !! pin.

(** What stays fixed while the script runs. *)
Record same_board (w w' : World) : Prop := mkSame {
  same_heap : heap w' = heap w;
  same_irqs : irqs w' = irqs w;
  same_input : input w' = input w;
  same_next : next_loc w' = next_loc w
}.

(** ** The two zones of the alarm *)

Inductive Zone := Bedroom | LivingRoom.

Definition sensor (g : Globals) (z : Zone) : loc :=
  match z with Bedroom => snsr_bedroom g | LivingRoom => snsr_living_room g end.

Definition indicator (g : Globals) (z : Zone) : loc :=
  match z with Bedroom => led_bedroom g | LivingRoom => led_living_room g end.

Definition other_zone (z : Zone) : Zone :=
  match z with Bedroom => LivingRoom | LivingRoom => Bedroom end.

(** GPIO lines, as wired by the script. *)
Definition sensor_line (z : Zone) : Z :=
  match z with Bedroom => 28 | LivingRoom => 18 end.

Definition indicator_line (z : Zone) : Z :=
  match z with Bedroom => 15 | LivingRoom => 11 end.

Definition buzzer_line : Z := 14.

(** The line the handler prints for a zone. *)
Definition alert (z : Zone) : string :=
  match z with
  | Bedroom => "ALARM! Motion detected in bedroom!"
  | LivingRoom => "ALARM! Motion detected in living room!"
  end.

(** The zone whose sensor [pin] is, by identity. *)
Definition zone_of (g : Globals) (pin : loc) : option Zone :=
  if decide (pin = snsr_bedroom g) then Some Bedroom
  else if decide (pin = snsr_living_room g) then Some LivingRoom
  else None.

(** The zone that is alerted, if any, for a pin and the level it read. *)
Definition alerted (g : Globals) (pin : loc) (b : bool) : option Zone :=
  if b then zone_of g pin else None.

(** Lines printed, and pins toggled with the delay since the handler was
    entered. *)
Definition behaviour (g : Globals) (pin : loc) (b : bool)
  : list string * list (Z * loc) :=
  match alerted g pin b with
  | Some z =>
      ([alert z],
       flat_map (fun k => [(100 + 100 * Z.of_nat k, indicator g z);
                           (100 + 100 * Z.of_nat k, buzzer g)]) (seq 0 10))
  | None => ([], [])
  end.

(** The zones alerted by the [value()] calls of a trace, in order. *)
Definition confirmed_triggers (g : Globals) (tr : list (Z * Event)) : list Zone :=
  omap (fun te => match te.2 with
                  | Read p v => alerted g p (truthy v)
                  | _ => None
                  end) tr.

(** ** The shape of the loops *)

(** [n] runs of the same body, the shape of both loops of the script. *)
Fixpoint times (n : nat) (body : M unit) : M unit :=
  match n with
  | O => mret tt
  | S k => body;; times k body
  end.

(** Two pins toggled together, then a pause: the body of every loop. *)
Definition blink (a b : loc) (period : Z) : M unit :=
  Pin.toggle a;; Pin.toggle b;; time.sleep_ms period.

(** Events of round [k] (from 0) of a blinking loop that started at time
    [t] with the two lines at [la] and [lb]. *)
Definition round (a b : loc) (period : Z) (la lb : bool) (t : Z) (k : nat)
  : list (Z * Event) :=
  let now := t + period * Z.of_nat k in
  [(now, Toggle a (xorb la (Nat.even k)));
   (now, Toggle b (xorb lb (Nat.even k)));
   (now, Sleep period)].

Definition rounds (a b : loc) (period : Z) (la lb : bool) (t : Z) (n : nat)
  : list (Z * Event) :=
  flat_map (round a b period la lb t) (seq 0 n).

(** Events of a confirmed trigger of zone [z] that entered the handler at
    time [t] with the indicator at [li] and the buzzer at [lb]. *)
Definition confirmed_events (g : Globals) (z : Zone) (li lb : bool) (t : Z)
  : list (Z * Event) :=
  [(t, Sleep 100); (t + 100, Read (sensor g z) 1); (t + 100, Print (alert z))]
  ++ rounds (indicator g z) (buzzer g) 100 li lb (t + 100) 10.

(** ** The running script *)

(** What holds between any two steps of the running script. *)
Record running (g : Globals) (w : World) : Prop := mkRunning {
  run_booted : booted g w;
  run_irqs : forall p, is_Some (irqs w !! p) -> exists z, p = sensor g z;
  run_prints : prints (trace w) = map alert (confirmed_triggers g (trace w))
}.

(** The world the script leaves at the end of start-up. *)
Definition started (inp : Z -> Z -> bool) : World :=
  mkWorld
    (<[4%nat := machine.mkpin 14 machine.OUT None]>
       (<[3%nat := machine.mkpin 11 machine.OUT None]>
          (<[2%nat := machine.mkpin 15 machine.OUT None]>
             (<[1%nat := machine.mkpin 18 machine.IN (Some machine.PULL_DOWN)]>
                (<[0%nat := machine.mkpin 28 machine.IN (Some machine.PULL_DOWN)]> ∅)))))
    ∅
    (<[1%nat := machine.IRQ_RISING]> (<[0%nat := machine.IRQ_RISING]> ∅))
    5%nat 0 inp [].

(** ** Boards for the examples *)

(** A concrete board for examples: the bedroom sensor is high for the first
    half second, the living-room sensor from 2 s to 3 s. *)
Definition demo_input (gpio t : Z) : bool :=
  ((gpio =? 28) && (t <? 500)) || ((gpio =? 18) && (2000 <=? t) && (t <? 3000)).

Definition demo_globals : Globals := mkGlobals 0%nat 1%nat 2%nat 3%nat 4%nat.

Definition demo_world : World :=
  match startup (power_on demo_input) with
  | Some (_, w) => w
  | None => power_on demo_input
  end.

(** The demo board with one more Pin object, a second handle on the bedroom
    sensor's line that is not the object bound to [snsr_bedroom]. *)
Definition spare_world : World :=
  match Pin.new 28 machine.IN None demo_world with
  | Some (_, w) => w
  | None => demo_world
  end.

Definition spare_pin : loc := 5%nat.

(** A board like the demo board whose sensors are high all the time. *)
Definition steady_world : World :=
  match startup (power_on (fun _ _ => true)) with
  | Some (_, w) => advance 700 w
  | None => power_on (fun _ _ => true)
  end.

(** The steady board after one iteration of the main loop: both LEDs are
    on, the buzzer is off. *)
Definition after_beat : World :=
  match exec (heartbeat demo_globals 1) steady_world with
  | Some w => w
  | None => steady_world
  end.

(** The conclusion of C1 as the specification words it: twenty toggles of the
    zone's indicator and of the buzzer. *)
Definition twenty_toggles (g : Globals) (z : Zone) (w : World) : Prop :=
  exists w',
    exec (pir_handler g (sensor g z)) w = Some w' /\
    prints (emitted w w') = [alert z] /\
    length (toggles (indicator g z) (emitted w w')) = 20%nat /\
    length (toggles (buzzer g) (emitted w w')) = 20%nat.

(** The board the script itself reaches from power on after one iteration of
    its main loop, with both sensors held high: both LEDs are on, the buzzer
    is off. *)
Definition first_beat_world : World :=
  match script [Tick; Tick; Tick] (power_on (fun _ _ => true)) with
  | Some (_, w) => w
  | None => power_on (fun _ _ => true)
  end.

(** The conclusion of C2 as the specification words it: ten toggles each, and
    the indicator and the buzzer in phase throughout, driven at the same
    instants to the same levels. *)
Definition in_phase (g : Globals) (z : Zone) (w : World) : Prop :=
  exists w',
    exec (pir_handler g (sensor g z)) w = Some w' /\
    length (toggles (indicator g z) (emitted w w')) = 10%nat /\
    length (toggles (buzzer g) (emitted w w')) = 10%nat /\
    toggles (indicator g z) (emitted w w') = toggles (buzzer g) (emitted w w').

(** ** Between two steps of the running script *)

(** The pins whose [value()] is called, in order. *)
Definition pins_read (tr : list (Z * Event)) : list loc :=
  map (fun r => r.1.2) (reads tr).

(** The sensors whose interrupt fires in a schedule, in order. *)
Definition sensor_interrupts (g : Globals) (sched : list Action) : list loc :=
  omap (fun a => match a with
                 | Irq p => match zone_of g p with Some _ => Some p | None => None end
                 | Tick => None
                 end) sched.

(** What holds of the board whenever the main loop is about to execute
    statement [pc] of its body. *)
Record steady (g : Globals) (pc : nat) (w : World) : Prop := mkSteady {
  st_running : running g w;
  st_armed_bedroom : irqs w !! snsr_bedroom g = Some machine.IRQ_RISING;
  st_armed_living_room : irqs w !! snsr_living_room g = Some machine.IRQ_RISING;
  st_pc : (pc <= 2)%nat;
  st_buzzer : level w buzzer_line = false;
  st_leds :
    xorb (level w (indicator_line Bedroom)) (level w (indicator_line LivingRoom)) =
    bool_decide (pc = 1%nat)
}.

(** * Properties *)

(** ** The script on the example boards *)

Example demo_startup : startup (power_on demo_input) = Some (demo_globals, demo_world).
Proof. vm_compute. reflexivity. Qed.

(** The bedroom sensor fires at power on and is still high 100 ms later. *)
Example demo_bedroom_alarm :
  trace <$> exec (pir_handler demo_globals 0%nat) demo_world =
  Some [(0, Sleep 100); (100, Read 0%nat 1);
        (100, Print "ALARM! Motion detected in bedroom!");
        (100, Toggle 2%nat true); (100, Toggle 4%nat true); (100, Sleep 100);
        (200, Toggle 2%nat false); (200, Toggle 4%nat false); (200, Sleep 100);
        (300, Toggle 2%nat true); (300, Toggle 4%nat true); (300, Sleep 100);
        (400, Toggle 2%nat false); (400, Toggle 4%nat false); (400, Sleep 100);
        (500, Toggle 2%nat true); (500, Toggle 4%nat true); (500, Sleep 100);
        (600, Toggle 2%nat false); (600, Toggle 4%nat false); (600, Sleep 100);
        (700, Toggle 2%nat true); (700, Toggle 4%nat true); (700, Sleep 100);
        (800, Toggle 2%nat false); (800, Toggle 4%nat false); (800, Sleep 100);
        (900, Toggle 2%nat true); (900, Toggle 4%nat true); (900, Sleep 100);
        (1000, Toggle 2%nat false); (1000, Toggle 4%nat false); (1000, Sleep 100)].
Proof. vm_compute. reflexivity. Qed.

(** The living-room sensor is low 100 ms after power on. *)
Example demo_living_room_rejected :
  trace <$> exec (pir_handler demo_globals 1%nat) demo_world =
  Some [(0, Sleep 100); (100, Read 1%nat 0)].
Proof. vm_compute. reflexivity. Qed.

Example demo_heartbeat :
  trace <$> exec (heartbeat demo_globals 2) demo_world =
  Some [(0, Toggle 2%nat true); (0, Toggle 3%nat true); (0, Sleep 1000);
        (1000, Toggle 2%nat false); (1000, Toggle 3%nat false); (1000, Sleep 1000)].
Proof. vm_compute. reflexivity. Qed.

(** An alarm that starts while the LED is on and the buzzer off drives the
    two in opposite levels all along. *)
Example alarm_after_one_heartbeat :
  level after_beat (indicator_line LivingRoom) = true /\
  level after_beat buzzer_line = false /\
  (fun w' => (map snd (toggles 3%nat (emitted after_beat w')),
              map snd (toggles 4%nat (emitted after_beat w'))))
    <$> exec (pir_handler demo_globals 1%nat) after_beat =
  Some ([false; true; false; true; false; true; false; true; false; true],
        [true; false; true; false; true; false; true; false; true; false]).
Proof. vm_compute. done. Qed.

(** Interrupts between the statements of the main loop; pin 7 has no
    handler. *)
Example demo_script :
  (fun r => prints (trace r.2))
    <$> script [Irq 0%nat; Tick; Irq 1%nat; Tick; Irq 7%nat] (power_on demo_input) =
  Some ["ALARM! Motion detected in bedroom!"%string].
Proof. vm_compute. reflexivity. Qed.

(** ** Running the monad *)

Lemma bind_run {A B} (m : M A) (f : A -> M B) (w : World) :
  (m ≫= f) w = match m w with Some (a, w') => f a w' | None => None end.
Proof. reflexivity. Qed.

Lemma ret_run {A} (a : A) (w : World) : (mret a : M A) w = Some (a, w).
Proof. reflexivity. Qed.

Lemma for_loop_times (body : M unit) (n i : nat) (w : World) :
  for_loop i n (fun _ => body) w = times n body w.
Proof.
  revert i w. induction n as [|n IH]; intros i w; [reflexivity|].
  cbn [for_loop times]. rewrite !bind_run.
  destruct (body w) as [[[] w1]|]; [apply IH | reflexivity].
Qed.

Lemma heartbeat_times (g : Globals) (n : nat) (w : World) :
  heartbeat g n w = times n (loop_body g) w.
Proof.
  revert w. induction n as [|n IH]; intros w; [reflexivity|].
  cbn [heartbeat times]. rewrite !bind_run.
  destruct (loop_body g w) as [[[] w1]|]; [apply IH | reflexivity].
Qed.

(** ** What stays fixed while the script runs *)

Lemma same_board_refl w : same_board w w.
Proof. by split. Qed.

Lemma same_board_trans w1 w2 w3 :
  same_board w1 w2 -> same_board w2 w3 -> same_board w1 w3.
Proof. intros [] []; split; congruence. Qed.

Lemma booted_same g w w' : same_board w w' -> booted g w -> booted g w'.
Proof. intros [Hh _ _ _] []; split; rewrite Hh; assumption. Qed.

(** The globals name five different objects. *)
Lemma booted_distinct g w :
  booted g w ->
  snsr_bedroom g <> snsr_living_room g /\
  led_bedroom g <> led_living_room g /\
  led_bedroom g <> buzzer g /\
  led_living_room g <> buzzer g.
Proof. intros []; repeat split; intros E; congruence. Qed.

Lemma level_set_level gp b w gp' :
  level (set_level gp b w) gp' = if decide (gp = gp') then b else level w gp'.
Proof.
  unfold level, set_level; cbn. rewrite lookup_insert.
  by case_decide.
Qed.

Lemma level_emit e w gp : level (emit e w) gp = level w gp.
Proof. reflexivity. Qed.

Lemma level_advance ms w gp : level (advance ms w) gp = level w gp.
Proof. reflexivity. Qed.

(** ** The library calls *)

Lemma sleep_ms_run ms w :
  time.sleep_ms ms w = Some (tt, advance ms (emit (Sleep ms) w)).
Proof. reflexivity. Qed.

Lemma print_run s w : print s w = Some (tt, emit (Print s) w).
Proof. reflexivity. Qed.

Lemma value_run p o w :
  heap w !! p = Some o ->
  Pin.value p w =
    Some (Z.b2z (Pin.level_of w o), emit (Read p (Z.b2z (Pin.level_of w o))) w).
Proof. intros H. unfold Pin.value. rewrite bind_run. cbn. by rewrite H. Qed.

Lemma value_raises p w : heap w !! p = None -> Pin.value p w = None.
Proof. intros H. unfold Pin.value. rewrite bind_run. cbn. by rewrite H. Qed.

Lemma toggle_run p o w :
  heap w !! p = Some o ->
  Pin.toggle p w =
    Some (tt, set_level (machine.id o) (negb (level w (machine.id o)))
                (emit (Toggle p (negb (level w (machine.id o)))) w)).
Proof. intros H. unfold Pin.toggle. rewrite bind_run. cbn. by rewrite H. Qed.

(** ** Two pins toggled together, then a pause: the body of every loop *)

Lemma round_S a b period la lb t k :
  round a b period la lb t (S k) =
  round a b period (negb la) (negb lb) (t + period) k.
Proof.
  unfold round. rewrite Nat.even_succ, <- Nat.negb_even.
  replace (t + period * Z.of_nat (S k)) with (t + period + period * Z.of_nat k) by lia.
  by destruct la, lb, (Nat.even k).
Qed.

Lemma rounds_S a b period la lb t n :
  rounds a b period la lb t (S n) =
  round a b period la lb t 0 ++ rounds a b period (negb la) (negb lb) (t + period) n.
Proof.
  unfold rounds. cbn [seq flat_map]. f_equal.
  rewrite <- seq_shift, flat_map_concat_map, map_map, <- flat_map_concat_map.
  apply flat_map_ext. intros k. apply round_S.
Qed.

Lemma blink_run a b period oa ob w :
  heap w !! a = Some oa -> heap w !! b = Some ob ->
  machine.id oa <> machine.id ob ->
  exists w',
    blink a b period w = Some (tt, w') /\
    same_board w w' /\
    clock w' = clock w + period /\
    trace w' = trace w ++
      round a b period (level w (machine.id oa)) (level w (machine.id ob)) (clock w) 0 /\
    forall gp, level w' gp =
      xorb (bool_decide (gp = machine.id oa \/ gp = machine.id ob)) (level w gp).
Proof.
  intros Ha Hb Hne. unfold blink. rewrite bind_run, (toggle_run _ _ _ Ha).
  rewrite bind_run, (toggle_run b ob) by exact Hb. rewrite sleep_ms_run.
  eexists; split; [reflexivity|].
  split; [by split|]. split; [reflexivity|]. split.
  - cbn. rewrite level_set_level, decide_False by done.
    rewrite level_emit, <- !app_assoc. unfold round. cbn.
    rewrite Z.mul_0_r, Z.add_0_r. by rewrite !xorb_true_r.
  - intros gp. rewrite level_advance, level_emit, level_set_level, level_emit.
    rewrite !level_set_level, level_emit.
    rewrite (decide_False (P := machine.id oa = machine.id ob)) by done.
    rewrite level_emit.
    destruct (decide (machine.id ob = gp)) as [<-|Hgb].
    { by rewrite bool_decide_true by (by right). }
    destruct (decide (machine.id oa = gp)) as [<-|Hga].
    { by rewrite bool_decide_true by (by left). }
    by rewrite bool_decide_false by (intros [->| ->]; congruence).
Qed.

Lemma blink_loop a b period oa ob n : forall w,
  heap w !! a = Some oa -> heap w !! b = Some ob ->
  machine.id oa <> machine.id ob ->
  exists w',
    times n (blink a b period) w = Some (tt, w') /\
    same_board w w' /\
    clock w' = clock w + period * Z.of_nat n /\
    trace w' = trace w ++
      rounds a b period (level w (machine.id oa)) (level w (machine.id ob)) (clock w) n /\
    forall gp, level w' gp =
      xorb (Nat.odd n && bool_decide (gp = machine.id oa \/ gp = machine.id ob))
           (level w gp).
Proof.
  induction n as [|n IH]; intros w Ha Hb Hne.
  - exists w. split; [reflexivity|]. split; [apply same_board_refl|].
    split; [lia|]. split; [by rewrite app_nil_r|]. intros gp. by destruct (level w gp).
  - destruct (blink_run a b period oa ob w Ha Hb Hne)
      as (w1 & Hrun & Hsame & Hclk & Htr & Hlvl).
    destruct (IH w1) as (w' & Hrun' & Hsame' & Hclk' & Htr' & Hlvl');
      [by rewrite (same_heap _ _ Hsame) .. | done |].
    exists w'. split; [cbn [times]; by rewrite bind_run, Hrun|].
    split; [by eapply same_board_trans|].
    split; [lia|]. split.
    + rewrite Htr', Htr, rounds_S, <- app_assoc. do 2 f_equal.
      rewrite !Hlvl, Hclk.
      rewrite !bool_decide_true by naive_solver. by rewrite !xorb_true_l.
    + intros gp. rewrite Hlvl', Hlvl, Nat.odd_succ, <- Nat.negb_odd.
      by destruct (Nat.odd n), (bool_decide _), (level w gp).
Qed.

(** ** The two zones of the alarm *)

Lemma booted_sensor g w z :
  booted g w ->
  heap w !! sensor g z =
    Some (machine.mkpin (sensor_line z) machine.IN (Some machine.PULL_DOWN)).
Proof. intros []; by destruct z. Qed.

Lemma booted_indicator g w z :
  booted g w ->
  heap w !! indicator g z = Some (machine.mkpin (indicator_line z) machine.OUT None).
Proof. intros []; by destruct z. Qed.

Lemma debounced_sensor g w z :
  booted g w ->
  debounced w (sensor g z) = Some (input w (sensor_line z) (clock w + 100)).
Proof. intros Hb. unfold debounced. by rewrite (booted_sensor _ _ _ Hb). Qed.

(** The branch the handler takes for a sensor. *)
Lemma handler_dispatch g w z {A} (x y d : A) :
  booted g w ->
  (if decide (sensor g z = snsr_bedroom g) then x
   else if decide (sensor g z = snsr_living_room g) then y else d) =
  match z with Bedroom => x | LivingRoom => y end.
Proof.
  intros Hb. destruct (booted_distinct _ _ Hb) as (Hne & _).
  destruct z; cbn.
  - by rewrite decide_True.
  - by rewrite decide_False, decide_True.
Qed.

Lemma handler_confirmed g z w :
  booted g w ->
  debounced w (sensor g z) = Some true ->
  exists w',
    pir_handler g (sensor g z) w = Some (tt, w') /\
    same_board w w' /\
    clock w' = clock w + 1100 /\
    trace w' = trace w ++
      confirmed_events g z (level w (indicator_line z)) (level w buzzer_line) (clock w) /\
    forall gp, level w' gp = level w gp.
Proof.
  intros Hb Hhigh. rewrite (debounced_sensor _ _ _ Hb) in Hhigh.
  injection Hhigh as Hhigh.
  set (w1 := advance 100 (emit (Sleep 100) w)).
  set (w2 := emit (Print (alert z)) (emit (Read (sensor g z) 1) w1)).
  destruct (blink_loop (indicator g z) (buzzer g) 100
              (machine.mkpin (indicator_line z) machine.OUT None)
              (machine.mkpin 14 machine.OUT None) 10 w2)
    as (w' & Hrun & Hsame & Hclk & Htr & Hlvl).
  { apply (booted_indicator g w z Hb). }
  { apply (bt_buzzer g w Hb). }
  { by destruct z. }
  exists w'. split.
  - unfold pir_handler. rewrite bind_run, sleep_ms_run. fold w1.
    rewrite bind_run, (value_run _ _ w1 (booted_sensor g w z Hb)).
    unfold Pin.level_of; cbn [machine.pin_mode machine.id].
    change (input w1 (sensor_line z) (clock w1)) with (input w (sensor_line z) (clock w + 100)).
    rewrite Hhigh. cbn [Z.b2z truthy Z.eqb negb].
    rewrite (handler_dispatch g w z) by done.
    unfold for_range.
    destruct z; rewrite bind_run, print_run; rewrite for_loop_times; exact Hrun.
  - split; [by destruct Hsame; split|].
    split; [rewrite Hclk; cbn; lia|].
    split.
    + rewrite Htr. unfold confirmed_events. cbn [w2 w1 trace emit advance clock].
      rewrite <- !app_assoc. reflexivity.
    + intros gp. rewrite Hlvl. cbn [Nat.odd Nat.even negb andb xorb]. reflexivity.
Qed.

(** The handler when the read is low, or the pin is not one of the sensors. *)
Lemma handler_quiet g pin o w :
  heap w !! pin = Some o ->
  Pin.level_of (advance 100 w) o = false \/
    (pin <> snsr_bedroom g /\ pin <> snsr_living_room g) ->
  pir_handler g pin w =
    Some (tt, emit (Read pin (Z.b2z (Pin.level_of (advance 100 w) o)))
                (advance 100 (emit (Sleep 100) w))).
Proof.
  intros Ho Hq. unfold pir_handler. rewrite bind_run, sleep_ms_run.
  rewrite bind_run, (value_run pin o) by exact Ho.
  change (Pin.level_of (advance 100 (emit (Sleep 100) w)) o)
    with (Pin.level_of (advance 100 w) o).
  destruct Hq as [-> | [H1 H2]]; [reflexivity|].
  rewrite !decide_False by done. by destruct (truthy _).
Qed.

(** Given something that is not a Pin, [pin.value()] raises and so does the
    handler. *)
Lemma handler_raises g pin w :
  heap w !! pin = None -> pir_handler g pin w = None.
Proof.
  intros H. unfold pir_handler. rewrite bind_run, sleep_ms_run, bind_run.
  by rewrite value_raises.
Qed.

(** ** Reading the events of one run *)

Lemma emitted_app w w' evs : trace w' = trace w ++ evs -> emitted w w' = evs.
Proof. intros H. unfold emitted. rewrite H. apply drop_app_length. Qed.

Lemma prints_app l1 l2 : prints (l1 ++ l2) = prints l1 ++ prints l2.
Proof. apply omap_app. Qed.

Lemma toggles_app p l1 l2 : toggles p (l1 ++ l2) = toggles p l1 ++ toggles p l2.
Proof. apply omap_app. Qed.

Lemma all_toggles_app l1 l2 :
  all_toggles (l1 ++ l2) = all_toggles l1 ++ all_toggles l2.
Proof. apply omap_app. Qed.

Lemma reads_app l1 l2 : reads (l1 ++ l2) = reads l1 ++ reads l2.
Proof. apply omap_app. Qed.

Section Rounds.
Variables (a b : loc) (period : Z) (la lb : bool) (t : Z).

Let rnd := round a b period la lb t.

Lemma prints_flat_round l : prints (flat_map rnd l) = [].
Proof. induction l as [|k l IH]; [reflexivity|]. cbn [flat_map]. by rewrite prints_app, IH. Qed.

Lemma reads_flat_round l : reads (flat_map rnd l) = [].
Proof. induction l as [|k l IH]; [reflexivity|]. cbn [flat_map]. by rewrite reads_app, IH. Qed.

Lemma all_toggles_flat_round l :
  all_toggles (flat_map rnd l) =
  flat_map (fun k => [(t + period * Z.of_nat k, a); (t + period * Z.of_nat k, b)]) l.
Proof.
  induction l as [|k l IH]; [reflexivity|].
  cbn [flat_map]. by rewrite all_toggles_app, IH.
Qed.

Lemma toggles_flat_round_fst l :
  a <> b ->
  toggles a (flat_map rnd l) =
  map (fun k => (t + period * Z.of_nat k, xorb la (Nat.even k))) l.
Proof.
  intros Hne. induction l as [|k l IH]; [reflexivity|].
  cbn [flat_map map]. rewrite toggles_app, IH.
  unfold rnd, round, toggles. cbn.
  by rewrite decide_True, decide_False.
Qed.

Lemma toggles_flat_round_snd l :
  a <> b ->
  toggles b (flat_map rnd l) =
  map (fun k => (t + period * Z.of_nat k, xorb lb (Nat.even k))) l.
Proof.
  intros Hne. induction l as [|k l IH]; [reflexivity|].
  cbn [flat_map map]. rewrite toggles_app, IH.
  unfold rnd, round, toggles. cbn.
  by rewrite decide_False, decide_True.
Qed.

Lemma toggles_flat_round_other p l :
  p <> a -> p <> b -> toggles p (flat_map rnd l) = [].
Proof.
  intros Ha Hb. induction l as [|k l IH]; [reflexivity|].
  cbn [flat_map]. rewrite toggles_app, IH.
  unfold rnd, round, toggles. cbn.
  by rewrite !decide_False.
Qed.
End Rounds.

(** Ten rounds leave every line where it was: the levels written alternate,
    starting with the inverse of the level at entry. *)
Lemma alternate_ten (l0 : bool) :
  map (fun k => xorb l0 (Nat.even k)) (seq 0 10) =
  concat (replicate 5 [negb l0; l0]).
Proof. by destruct l0. Qed.

(** ** Reading a confirmed trigger *)

Section Confirmed.
Variables (g : Globals) (z : Zone) (li lb : bool) (t : Z).
Hypothesis led_not_buzzer : indicator g z <> buzzer g.

Let evs := confirmed_events g z li lb t.

Lemma prints_confirmed : prints evs = [alert z].
Proof.
  unfold evs, confirmed_events, rounds.
  by rewrite prints_app, prints_flat_round.
Qed.

Lemma reads_confirmed : reads evs = [(t + 100, sensor g z, 1)].
Proof.
  unfold evs, confirmed_events, rounds.
  by rewrite reads_app, reads_flat_round.
Qed.

Lemma toggles_confirmed_indicator :
  toggles (indicator g z) evs =
  map (fun k => (t + 100 + 100 * Z.of_nat k, xorb li (Nat.even k))) (seq 0 10).
Proof.
  unfold evs, confirmed_events, rounds.
  by rewrite toggles_app, toggles_flat_round_fst.
Qed.

Lemma toggles_confirmed_buzzer :
  toggles (buzzer g) evs =
  map (fun k => (t + 100 + 100 * Z.of_nat k, xorb lb (Nat.even k))) (seq 0 10).
Proof.
  unfold evs, confirmed_events, rounds.
  by rewrite toggles_app, toggles_flat_round_snd.
Qed.

Lemma toggles_confirmed_other p :
  p <> indicator g z -> p <> buzzer g -> toggles p evs = [].
Proof.
  intros H1 H2. unfold evs, confirmed_events, rounds.
  by rewrite toggles_app, toggles_flat_round_other.
Qed.

Lemma all_toggles_confirmed :
  all_toggles evs =
  flat_map (fun k => [(t + 100 + 100 * Z.of_nat k, indicator g z);
                      (t + 100 + 100 * Z.of_nat k, buzzer g)]) (seq 0 10).
Proof.
  unfold evs, confirmed_events, rounds.
  by rewrite all_toggles_app, all_toggles_flat_round.
Qed.
End Confirmed.

Lemma booted_indicator_not_buzzer g w z : booted g w -> indicator g z <> buzzer g.
Proof. intros Hb. destruct (booted_distinct _ _ Hb) as (_ & _ & ? & ?). by destruct z. Qed.

Lemma booted_indicators_differ g w z :
  booted g w -> indicator g (other_zone z) <> indicator g z.
Proof.
  intros Hb. destruct (booted_distinct _ _ Hb) as (_ & ? & _).
  destruct z; cbn; congruence.
Qed.

(** A confirmed trigger, in terms of the events of the run. *)
Lemma confirmed_run g z w :
  booted g w ->
  debounced w (sensor g z) = Some true ->
  exists w',
    exec (pir_handler g (sensor g z)) w = Some w' /\
    trace w' = trace w ++
      confirmed_events g z (level w (indicator_line z)) (level w buzzer_line) (clock w) /\
    clock w' = clock w + 1100 /\
    same_board w w' /\
    forall gp, level w' gp = level w gp.
Proof.
  intros Hb Hhigh.
  destruct (handler_confirmed g z w Hb Hhigh) as (w' & Hrun & Hsame & Hclk & Htr & Hlvl).
  exists w'. unfold exec. rewrite Hrun.
  split; [reflexivity|]. done.
Qed.

(** A trigger that is not confirmed, or a pin that is no sensor. *)
Lemma quiet_run g pin b w :
  debounced w pin = Some b ->
  b = false \/ (pin <> snsr_bedroom g /\ pin <> snsr_living_room g) ->
  exists w',
    exec (pir_handler g pin) w = Some w' /\
    trace w' = trace w ++ [(clock w, Sleep 100); (clock w + 100, Read pin (Z.b2z b))] /\
    clock w' = clock w + 100 /\
    same_board w w' /\
    latch w' = latch w.
Proof.
  unfold debounced. intros Hd Hq.
  destruct (heap w !! pin) as [o|] eqn:Ho; [|discriminate].
  injection Hd as Hd.
  eexists. unfold exec. rewrite (handler_quiet g pin o w Ho).
  - split; [reflexivity|]. split.
    + cbn. by rewrite Hd, <- app_assoc.
    + done.
  - rewrite Hd. exact Hq.
Qed.

(** * The claims *)

(** C1, as stated, fails: on the demo board the bedroom sensor is still high
    after the debounce delay, and the handler toggles the bedroom LED ten
    times, not twenty. *)
Lemma twenty_toggles_counterexample :
  booted demo_globals demo_world /\
  debounced demo_world (sensor demo_globals Bedroom) = Some true /\
  ~ twenty_toggles demo_globals Bedroom demo_world.
Proof.
  split; [by split|]. split; [reflexivity|].
  intros (w' & Hrun & _ & Hled & _).
  vm_compute in Hrun. injection Hrun as <-.
  vm_compute in Hled. discriminate Hled.
Qed.

(** C1 (amended): for every trigger whose sensor still reads high after the
    100 ms debounce delay, the handler prints exactly one alert line, the one
    of the triggering zone, and toggles the zone's indicator and the shared
    buzzer exactly 10 times each: 5 full cycles, the levels written
    alternating from the inverse of the level at entry back to that level. *)
Theorem confirmed_trigger_alert_and_ten_toggles g z w :
  booted g w ->
  debounced w (sensor g z) = Some true ->
  exists w',
    exec (pir_handler g (sensor g z)) w = Some w' /\
    prints (emitted w w') = [alert z] /\
    length (toggles (indicator g z) (emitted w w')) = 10%nat /\
    length (toggles (buzzer g) (emitted w w')) = 10%nat /\
    map snd (toggles (indicator g z) (emitted w w')) =
      concat (replicate 5 [negb (level w (indicator_line z)); level w (indicator_line z)]) /\
    map snd (toggles (buzzer g) (emitted w w')) =
      concat (replicate 5 [negb (level w buzzer_line); level w buzzer_line]).
Proof.
  intros Hb Hhigh.
  destruct (confirmed_run g z w Hb Hhigh) as (w' & Hrun & Hev & _).
  apply emitted_app in Hev.
  pose proof (booted_indicator_not_buzzer g w z Hb) as Hne.
  exists w'. rewrite Hev. split; [exact Hrun|].
  rewrite prints_confirmed, toggles_confirmed_indicator, toggles_confirmed_buzzer by done.
  rewrite !length_map, !map_map, length_seq. cbn [snd].
  rewrite <- !alternate_ten. done.
Qed.

Lemma confirmed_trigger_alert_and_ten_toggles_witness :
  booted demo_globals demo_world /\
  debounced demo_world (sensor demo_globals Bedroom) = Some true /\
  exists w',
    exec (pir_handler demo_globals (sensor demo_globals Bedroom)) demo_world = Some w' /\
    prints (emitted demo_world w') = [alert Bedroom] /\
    length (toggles (indicator demo_globals Bedroom) (emitted demo_world w')) = 10%nat /\
    length (toggles (buzzer demo_globals) (emitted demo_world w')) = 10%nat.
Proof.
  assert (Hb : booted demo_globals demo_world) by (by split).
  assert (Hh : debounced demo_world (sensor demo_globals Bedroom) = Some true)
    by reflexivity.
  split; [exact Hb|]. split; [exact Hh|].
  destruct (confirmed_trigger_alert_and_ten_toggles demo_globals Bedroom demo_world Hb Hh)
    as (w' & H1 & H2 & H3 & H4 & _).
  exists w'. repeat split; assumption.
Defined.

(** C2, as stated, fails: after one iteration of the main loop the
    living-room LED is on and the buzzer is off; a confirmed living-room
    trigger then drives the LED off when it drives the buzzer on, and so on
    for all ten rounds.  They are toggled together but not in phase. *)
Lemma in_phase_counterexample :
  (exists pc,
     script [Tick; Tick; Tick] (power_on (fun _ _ => true)) =
     Some (pc, first_beat_world)) /\
  booted demo_globals first_beat_world /\
  debounced first_beat_world (sensor demo_globals LivingRoom) = Some true /\
  ~ in_phase demo_globals LivingRoom first_beat_world.
Proof.
  split; [exists 0%nat; vm_compute; reflexivity|].
  split; [split; vm_compute; reflexivity|]. split; [vm_compute; reflexivity|].
  intros (w' & Hrun & _ & _ & Heq).
  vm_compute in Hrun. injection Hrun as <-.
  vm_compute in Heq. discriminate Heq.
Qed.

(** C2 (amended): for every confirmed trigger the handler runs a fixed
    sequence: after the debounce sleep, the read and the alert line come ten
    rounds, each toggling the zone's indicator and the buzzer at the same
    instant and then pausing 100 ms.  Both are toggled ten times, at the same
    times, and they keep throughout the phase relation they had at entry: the
    level written to the indicator is the level written to the buzzer at
    every round when the two were at the same level at entry, and its inverse
    at every round when they were not. *)
Theorem confirmed_trigger_pulses_keep_their_phase g z w :
  booted g w ->
  debounced w (sensor g z) = Some true ->
  exists w',
    exec (pir_handler g (sensor g z)) w = Some w' /\
    trace w' = trace w ++ emitted w w' /\
    let evs := emitted w w' in
    let t := clock w in
    let li := level w (indicator_line z) in
    let lb := level w buzzer_line in
    evs =
      [(t, Sleep 100); (t + 100, Read (sensor g z) 1); (t + 100, Print (alert z))]
      ++ flat_map (fun k =>
           let now := t + 100 + 100 * Z.of_nat k in
           [(now, Toggle (indicator g z) (xorb li (Nat.even k)));
            (now, Toggle (buzzer g) (xorb lb (Nat.even k)));
            (now, Sleep 100)]) (seq 0 10) /\
    length (toggles (indicator g z) evs) = 10%nat /\
    length (toggles (buzzer g) evs) = 10%nat /\
    map fst (toggles (indicator g z) evs) = map fst (toggles (buzzer g) evs) /\
    toggles (indicator g z) evs =
      map (fun tb => (tb.1, xorb (xorb li lb) tb.2)) (toggles (buzzer g) evs) /\
    (li = lb -> toggles (indicator g z) evs = toggles (buzzer g) evs) /\
    (li <> lb ->
     toggles (indicator g z) evs =
       map (fun tb => (tb.1, negb tb.2)) (toggles (buzzer g) evs)).
Proof.
  intros Hb Hhigh.
  destruct (confirmed_run g z w Hb Hhigh) as (w' & Hrun & Htr & _).
  pose proof (emitted_app _ _ _ Htr) as Hev.
  pose proof (booted_indicator_not_buzzer g w z Hb) as Hne.
  exists w'. split; [exact Hrun|]. split; [by rewrite Hev|]. cbv zeta. rewrite Hev.
  rewrite toggles_confirmed_indicator, toggles_confirmed_buzzer by done.
  split; [reflexivity|]. rewrite !length_map, length_seq.
  split; [reflexivity|]. split; [reflexivity|].
  split; [by rewrite !map_map|]. split; [|split].
  - rewrite map_map. apply map_ext. intros k. cbn [fst snd]. f_equal.
    by destruct (level w (indicator_line z)), (level w buzzer_line), (Nat.even k).
  - by intros ->.
  - intros Hdiff. rewrite map_map. apply map_ext. intros k. cbn [fst snd]. f_equal.
    by destruct (level w (indicator_line z)), (level w buzzer_line), (Nat.even k).
Qed.

(** Both cases: on the demo board at power on the LED and the buzzer are both
    off and move together; after one iteration of the main loop the LED is on
    and they move in opposition. *)
Lemma confirmed_trigger_pulses_keep_their_phase_witness :
  booted demo_globals demo_world /\
  debounced demo_world (sensor demo_globals Bedroom) = Some true /\
  booted demo_globals first_beat_world /\
  debounced first_beat_world (sensor demo_globals LivingRoom) = Some true /\
  level first_beat_world (indicator_line LivingRoom) <> level first_beat_world buzzer_line /\
  (exists w',
     exec (pir_handler demo_globals (sensor demo_globals Bedroom)) demo_world = Some w' /\
     length (toggles (indicator demo_globals Bedroom) (emitted demo_world w')) = 10%nat /\
     length (toggles (buzzer demo_globals) (emitted demo_world w')) = 10%nat /\
     toggles (indicator demo_globals Bedroom) (emitted demo_world w') =
       toggles (buzzer demo_globals) (emitted demo_world w')) /\
  (exists w',
     exec (pir_handler demo_globals (sensor demo_globals LivingRoom)) first_beat_world
       = Some w' /\
     length (toggles (indicator demo_globals LivingRoom) (emitted first_beat_world w'))
       = 10%nat /\
     length (toggles (buzzer demo_globals) (emitted first_beat_world w')) = 10%nat /\
     toggles (indicator demo_globals LivingRoom) (emitted first_beat_world w') =
       map (fun tb => (tb.1, negb tb.2))
           (toggles (buzzer demo_globals) (emitted first_beat_world w'))).
Proof.
  assert (Hb : booted demo_globals demo_world) by (by split).
  assert (Hh : debounced demo_world (sensor demo_globals Bedroom) = Some true)
    by reflexivity.
  assert (Hb' : booted demo_globals first_beat_world)
    by (split; vm_compute; reflexivity).
  assert (Hh' : debounced first_beat_world (sensor demo_globals LivingRoom) = Some true)
    by (vm_compute; reflexivity).
  assert (Hd : level first_beat_world (indicator_line LivingRoom)
               <> level first_beat_world buzzer_line)
    by (vm_compute; discriminate).
  split; [exact Hb|]. split; [exact Hh|]. split; [exact Hb'|]. split; [exact Hh'|].
  split; [exact Hd|]. split.
  - destruct (confirmed_trigger_pulses_keep_their_phase demo_globals Bedroom demo_world Hb Hh)
      as (w' & H1 & _ & _ & H2 & H3 & _ & _ & H4 & _).
    exists w'. split; [exact H1|]. split; [exact H2|]. split; [exact H3|].
    apply H4. reflexivity.
  - destruct (confirmed_trigger_pulses_keep_their_phase demo_globals LivingRoom
                first_beat_world Hb' Hh')
      as (w' & H1 & _ & _ & H2 & H3 & _ & _ & _ & H5).
    exists w'. split; [exact H1|]. split; [exact H2|]. split; [exact H3|].
    apply H5. exact Hd.
Defined.

(** C3: when the pin reads low after the 100 ms debounce delay the handler
    returns without printing and without toggling any pin; every output line
    keeps its level.  All it did was sleep and read. *)
Theorem rejected_trigger_has_no_effects g pin w :
  debounced w pin = Some false ->
  exists w',
    exec (pir_handler g pin) w = Some w' /\
    prints (emitted w w') = [] /\
    all_toggles (emitted w w') = [] /\
    latch w' = latch w /\
    (forall gp, level w' gp = level w gp) /\
    trace w' = trace w ++ [(clock w, Sleep 100); (clock w + 100, Read pin 0)].
Proof.
  intros Hlow.
  destruct (quiet_run g pin false w Hlow) as (w' & Hrun & Htr & _ & _ & Hl);
    [by left|].
  pose proof (emitted_app _ _ _ Htr) as Hev.
  exists w'. rewrite Hev. unfold level. rewrite Hl. done.
Qed.

Lemma rejected_trigger_has_no_effects_witness :
  debounced demo_world (sensor demo_globals LivingRoom) = Some false /\
  exists w',
    exec (pir_handler demo_globals (sensor demo_globals LivingRoom)) demo_world = Some w' /\
    prints (emitted demo_world w') = [] /\
    all_toggles (emitted demo_world w') = [] /\
    latch w' = latch demo_world.
Proof.
  assert (Hl : debounced demo_world (sensor demo_globals LivingRoom) = Some false)
    by reflexivity.
  split; [exact Hl|].
  destruct (rejected_trigger_has_no_effects demo_globals
              (sensor demo_globals LivingRoom) demo_world Hl)
    as (w' & H1 & H2 & H3 & H4 & _).
  exists w'. repeat split; assumption.
Defined.

(** C7: a pin object that is neither [snsr_bedroom] nor [snsr_living_room]
    falls through both branches: whatever it reads after the debounce delay,
    high included, the handler prints nothing and toggles nothing. *)
Theorem unrecognized_pin_is_ignored g pin b w :
  pin <> snsr_bedroom g ->
  pin <> snsr_living_room g ->
  debounced w pin = Some b ->
  exists w',
    exec (pir_handler g pin) w = Some w' /\
    prints (emitted w w') = [] /\
    all_toggles (emitted w w') = [] /\
    latch w' = latch w /\
    trace w' = trace w ++ [(clock w, Sleep 100); (clock w + 100, Read pin (Z.b2z b))].
Proof.
  intros H1 H2 Hd.
  destruct (quiet_run g pin b w Hd) as (w' & Hrun & Htr & _ & _ & Hl);
    [by right|].
  pose proof (emitted_app _ _ _ Htr) as Hev.
  exists w'. rewrite Hev. done.
Qed.

Lemma unrecognized_pin_is_ignored_witness :
  spare_pin <> snsr_bedroom demo_globals /\
  spare_pin <> snsr_living_room demo_globals /\
  debounced spare_world spare_pin = Some true /\
  exists w',
    exec (pir_handler demo_globals spare_pin) spare_world = Some w' /\
    prints (emitted spare_world w') = [] /\
    all_toggles (emitted spare_world w') = [] /\
    latch w' = latch spare_world.
Proof.
  assert (H1 : spare_pin <> snsr_bedroom demo_globals) by discriminate.
  assert (H2 : spare_pin <> snsr_living_room demo_globals) by discriminate.
  assert (Hd : debounced spare_world spare_pin = Some true) by reflexivity.
  split; [exact H1|]. split; [exact H2|]. split; [exact Hd|].
  destruct (unrecognized_pin_is_ignored demo_globals spare_pin true spare_world H1 H2 Hd)
    as (w' & Hrun & Hp & Ht & Hl & _).
  exists w'. repeat split; assumption.
Defined.

(** ** C4: the zones are separate, the buzzer is shared *)

(** The handler always returns when it is given one of the two sensors. *)
Lemma sensor_run g z w :
  booted g w ->
  exists b w',
    debounced w (sensor g z) = Some b /\
    exec (pir_handler g (sensor g z)) w = Some w' /\
    same_board w w' /\
    trace w' = trace w ++
      (if b then confirmed_events g z (level w (indicator_line z))
                                  (level w buzzer_line) (clock w)
       else [(clock w, Sleep 100); (clock w + 100, Read (sensor g z) 0)]) /\
    forall gp, level w' gp = level w gp.
Proof.
  intros Hb. pose proof (debounced_sensor g w z Hb) as Hd.
  destruct (input w (sensor_line z) (clock w + 100)) eqn:Hin.
  - destruct (confirmed_run g z w Hb Hd) as (w' & Hrun & Hev & _ & Hs & Hl).
    by exists true, w'.
  - destruct (quiet_run g _ false w Hd) as (w' & Hrun & Hev & _ & Hs & Hl); [by left|].
    exists false, w'. do 4 (split; [done|]). intros gp. unfold level. by rewrite Hl.
Qed.

(** C4: a trigger of one zone never toggles the other zone's indicator,
    whether it is confirmed or not; and two confirmed triggers, one per zone,
    toggle the buzzer the same number of times (ten) at the same offsets from
    their entry (100 ms, 200 ms, ..., 1000 ms), writing the same levels when
    the buzzer started at the same level. *)
Theorem zones_are_separate_and_share_the_buzzer g :
  (forall z w,
     booted g w ->
     exists w',
       exec (pir_handler g (sensor g z)) w = Some w' /\
       toggles (indicator g (other_zone z)) (emitted w w') = [] /\
       level w' (indicator_line (other_zone z)) =
         level w (indicator_line (other_zone z))) /\
  (forall w1 w2,
     booted g w1 -> booted g w2 ->
     debounced w1 (snsr_bedroom g) = Some true ->
     debounced w2 (snsr_living_room g) = Some true ->
     exists w1' w2',
       exec (pir_handler g (snsr_bedroom g)) w1 = Some w1' /\
       exec (pir_handler g (snsr_living_room g)) w2 = Some w2' /\
       map fst (since (clock w1) (toggles (buzzer g) (emitted w1 w1'))) =
         map (fun k => 100 + 100 * Z.of_nat k) (seq 0 10) /\
       map fst (since (clock w2) (toggles (buzzer g) (emitted w2 w2'))) =
         map (fun k => 100 + 100 * Z.of_nat k) (seq 0 10) /\
       (level w1 buzzer_line = level w2 buzzer_line ->
        since (clock w1) (toggles (buzzer g) (emitted w1 w1')) =
        since (clock w2) (toggles (buzzer g) (emitted w2 w2')))).
Proof.
  split.
  - intros z w Hb.
    destruct (sensor_run g z w Hb) as (b & w' & _ & Hrun & _ & Hev & Hl).
    apply emitted_app in Hev.
    exists w'. split; [exact Hrun|]. split; [|apply Hl].
    rewrite Hev. destruct b; [|reflexivity].
    apply toggles_confirmed_other.
    + by apply (booted_indicators_differ g w).
    + by apply (booted_indicator_not_buzzer g w).
  - intros w1 w2 Hb1 Hb2 Hh1 Hh2.
    destruct (confirmed_run g Bedroom w1 Hb1 Hh1) as (w1' & Hrun1 & Hev1 & _).
    destruct (confirmed_run g LivingRoom w2 Hb2 Hh2) as (w2' & Hrun2 & Hev2 & _).
    apply emitted_app in Hev1, Hev2.
    exists w1', w2'. split; [exact Hrun1|]. split; [exact Hrun2|].
    rewrite Hev1, Hev2.
    rewrite !toggles_confirmed_buzzer
      by (by eapply booted_indicator_not_buzzer).
    assert (Hoff : forall t l0,
      since t (map (fun k => (t + 100 + 100 * Z.of_nat k, xorb l0 (Nat.even k))) (seq 0 10))
      = map (fun k => (100 + 100 * Z.of_nat k, xorb l0 (Nat.even k))) (seq 0 10)).
    { intros t l0. unfold since. rewrite map_map.
      apply map_ext. intros k. cbn. f_equal. lia. }
    rewrite !Hoff, !map_map. cbn [fst].
    split; [reflexivity|]. split; [reflexivity|]. by intros ->.
Qed.

Lemma zones_are_separate_and_share_the_buzzer_witness :
  booted demo_globals demo_world /\
  debounced demo_world (snsr_bedroom demo_globals) = Some true /\
  debounced (advance 2000 demo_world) (snsr_living_room demo_globals) = Some true /\
  (exists w',
     exec (pir_handler demo_globals (sensor demo_globals Bedroom)) demo_world = Some w' /\
     toggles (indicator demo_globals (other_zone Bedroom)) (emitted demo_world w') = []) /\
  (exists w1' w2',
     exec (pir_handler demo_globals (snsr_bedroom demo_globals)) demo_world = Some w1' /\
     exec (pir_handler demo_globals (snsr_living_room demo_globals))
          (advance 2000 demo_world) = Some w2' /\
     since (clock demo_world)
           (toggles (buzzer demo_globals) (emitted demo_world w1')) =
     since (clock (advance 2000 demo_world))
           (toggles (buzzer demo_globals) (emitted (advance 2000 demo_world) w2'))).
Proof.
  assert (Hb1 : booted demo_globals demo_world) by (by split).
  assert (Hb2 : booted demo_globals (advance 2000 demo_world)) by (by split).
  assert (Hh1 : debounced demo_world (snsr_bedroom demo_globals) = Some true)
    by reflexivity.
  assert (Hh2 : debounced (advance 2000 demo_world) (snsr_living_room demo_globals)
                = Some true) by reflexivity.
  split; [exact Hb1|]. split; [exact Hh1|]. split; [exact Hh2|].
  destruct (zones_are_separate_and_share_the_buzzer demo_globals) as [Hsep Hshare].
  split.
  - destruct (Hsep Bedroom demo_world Hb1) as (w' & Hrun & Ht & _).
    exists w'. split; assumption.
  - destruct (Hshare demo_world (advance 2000 demo_world) Hb1 Hb2 Hh1 Hh2)
      as (w1' & w2' & Hrun1 & Hrun2 & _ & _ & Heq).
    exists w1', w2'. split; [exact Hrun1|]. split; [exact Hrun2|].
    apply Heq. reflexivity.
Defined.

(** ** The heartbeat loop *)

Lemma heartbeat_run g n w :
  booted g w ->
  exists w',
    exec (heartbeat g n) w = Some w' /\
    trace w' = trace w ++
      rounds (led_bedroom g) (led_living_room g) 1000
             (level w (indicator_line Bedroom)) (level w (indicator_line LivingRoom))
             (clock w) n /\
    clock w' = clock w + 1000 * Z.of_nat n /\
    same_board w w' /\
    forall gp, level w' gp =
      xorb (Nat.odd n &&
            bool_decide (gp = indicator_line Bedroom \/ gp = indicator_line LivingRoom))
           (level w gp).
Proof.
  intros Hb.
  destruct (blink_loop (led_bedroom g) (led_living_room g) 1000
              (machine.mkpin 15 machine.OUT None)
              (machine.mkpin 11 machine.OUT None) n w)
    as (w' & Hrun & Hsame & Hclk & Htr & Hlvl);
    [apply Hb | apply Hb | done |].
  exists w'. unfold exec. rewrite heartbeat_times.
  change (loop_body g) with (blink (led_bedroom g) (led_living_room g) 1000).
  rewrite Hrun. split; [reflexivity|]. done.
Qed.

(** How many of the instants [t], [t + period], ..., [t + (n-1) period] fall
    in a window of [m] periods that lies inside the run. *)
Lemma count_window (c m n : nat) :
  length (filter (fun k => (c <= k < c + m)%nat) (seq 0 n)) =
  (Nat.min n (c + m) - Nat.min n c)%nat.
Proof.
  induction n as [|n IH]; [reflexivity|].
  rewrite seq_S, filter_app, length_app, IH, filter_singleton; [|exact []].
  cbn [Nat.add]. case_decide; cbn [length]; lia.
Qed.

Lemma count_instants (period t a : Z) (m n : nat) :
  0 < period ->
  t <= a ->
  a + period * Z.of_nat m <= t + period * Z.of_nat n ->
  length (filter (fun k => a <= t + period * Z.of_nat k < a + period * Z.of_nat m)
                 (seq 0 n)) = m.
Proof.
  intros Hp Hta Hend.
  set (c := (a - t + period - 1) / period).
  assert (Hc1 : a - t <= period * c).
  { pose proof (Z.mul_div_le (a - t + period - 1) period Hp).
    pose proof (Z.mod_pos_bound (a - t + period - 1) period Hp).
    pose proof (Z.div_mod (a - t + period - 1) period). fold c in H, H1. lia. }
  assert (Hc2 : period * c < a - t + period).
  { pose proof (Z.mul_div_le (a - t + period - 1) period Hp). fold c in H. lia. }
  assert (Hc0 : 0 <= c) by (apply Z.div_pos; lia).
  rewrite (list_filter_iff _ (fun k => (Z.to_nat c <= k < Z.to_nat c + m)%nat)).
  - rewrite count_window. nia.
  - intros k. nia.
Qed.

Lemma length_filter_map {A B} (f : A -> B) (P : B -> Prop)
    `{!forall y, Decision (P y)} (l : list A) :
  length (filter P (map f l)) = length (filter (fun x => P (f x)) l).
Proof.
  induction l as [|x l IH]; [reflexivity|]. cbn [map].
  rewrite !filter_cons. case_decide; cbn [length]; by rewrite IH.
Qed.

(** C5: with no handler running, every iteration of the main loop toggles
    the bedroom LED, then the living-room LED, then sleeps one second.  After
    [n] iterations [n] seconds have passed, each LED has been toggled exactly
    [n] times and the buzzer not at all; and in any window of [m] seconds
    inside the run each LED is toggled exactly [m] times. *)
Theorem heartbeat_toggles_each_indicator_once_per_second g n w :
  booted g w ->
  exists w',
    exec (heartbeat g n) w = Some w' /\
    trace w' = trace w ++ emitted w w' /\
    let evs := emitted w w' in
    let t := clock w in
    let l0 := level w (indicator_line Bedroom) in
    let r0 := level w (indicator_line LivingRoom) in
    evs = flat_map (fun k =>
            let now := t + 1000 * Z.of_nat k in
            [(now, Toggle (led_bedroom g) (xorb l0 (Nat.even k)));
             (now, Toggle (led_living_room g) (xorb r0 (Nat.even k)));
             (now, Sleep 1000)]) (seq 0 n) /\
    clock w' = t + 1000 * Z.of_nat n /\
    length (toggles (led_bedroom g) evs) = n /\
    length (toggles (led_living_room g) evs) = n /\
    toggles (buzzer g) evs = [] /\
    level w' buzzer_line = level w buzzer_line /\
    forall (a : Z) (m : nat),
      t <= a -> a + 1000 * Z.of_nat m <= clock w' ->
      length (filter (fun tb => a <= tb.1 < a + 1000 * Z.of_nat m)
                     (toggles (led_bedroom g) evs)) = m /\
      length (filter (fun tb => a <= tb.1 < a + 1000 * Z.of_nat m)
                     (toggles (led_living_room g) evs)) = m.
Proof.
  intros Hb.
  destruct (heartbeat_run g n w Hb) as (w' & Hrun & Htr & Hclk & _ & Hlvl).
  pose proof (emitted_app _ _ _ Htr) as Hev.
  destruct (booted_distinct g w Hb) as (_ & Hll & Hlb & Hrb).
  exists w'. split; [exact Hrun|]. split; [by rewrite Hev|].
  cbv zeta. rewrite Hev. unfold rounds.
  rewrite toggles_flat_round_fst, toggles_flat_round_snd by done.
  rewrite toggles_flat_round_other by congruence.
  rewrite !length_map, length_seq.
  split; [reflexivity|]. split; [exact Hclk|].
  split; [reflexivity|]. split; [reflexivity|]. split; [reflexivity|].
  split.
  - rewrite Hlvl, bool_decide_false, andb_false_r; [done|].
    unfold buzzer_line, indicator_line. lia.
  - intros a m Ha Hend. rewrite Hclk in Hend.
    rewrite !length_filter_map. cbn [fst].
    split; apply count_instants; lia.
Qed.

Lemma heartbeat_toggles_each_indicator_once_per_second_witness :
  booted demo_globals demo_world /\
  exists w',
    exec (heartbeat demo_globals 5) demo_world = Some w' /\
    clock w' = clock demo_world + 1000 * Z.of_nat 5 /\
    length (toggles (led_bedroom demo_globals) (emitted demo_world w')) = 5%nat /\
    length (toggles (led_living_room demo_globals) (emitted demo_world w')) = 5%nat /\
    toggles (buzzer demo_globals) (emitted demo_world w') = [] /\
    length (filter (fun tb => 1500 <= tb.1 < 1500 + 1000 * Z.of_nat 2)
                   (toggles (led_bedroom demo_globals) (emitted demo_world w'))) = 2%nat.
Proof.
  assert (Hb : booted demo_globals demo_world) by (by split).
  split; [exact Hb|].
  destruct (heartbeat_toggles_each_indicator_once_per_second demo_globals 5 demo_world Hb)
    as (w' & Hrun & _ & _ & Hclk & Hl & Hr & Hbz & _ & Hwin).
  exists w'. do 5 (split; [assumption|]).
  apply (Hwin 1500 2%nat).
  - vm_compute. discriminate.
  - rewrite Hclk. vm_compute. discriminate.
Defined.

(** C9: every iteration of the main loop toggles both LEDs, so whatever the
    number of iterations the exclusive-or of the two LED levels is what it was
    when the loop started; at every instant the level written to one LED
    relates to the level written to the other as their levels did at the
    start. *)
Theorem heartbeat_keeps_relative_phase g n w :
  booted g w ->
  exists w',
    exec (heartbeat g n) w = Some w' /\
    xorb (level w' (indicator_line Bedroom)) (level w' (indicator_line LivingRoom)) =
    xorb (level w (indicator_line Bedroom)) (level w (indicator_line LivingRoom)) /\
    toggles (led_bedroom g) (emitted w w') =
      map (fun tb => (tb.1, xorb (xorb (level w (indicator_line Bedroom))
                                       (level w (indicator_line LivingRoom))) tb.2))
          (toggles (led_living_room g) (emitted w w')).
Proof.
  intros Hb.
  destruct (heartbeat_run g n w Hb) as (w' & Hrun & Hev & _ & _ & Hlvl).
  apply emitted_app in Hev.
  destruct (booted_distinct g w Hb) as (_ & Hll & _).
  exists w'. split; [exact Hrun|]. split.
  - rewrite !Hlvl. rewrite !bool_decide_true by auto.
    by destruct (Nat.odd n), (level w (indicator_line Bedroom)),
                (level w (indicator_line LivingRoom)).
  - rewrite Hev. unfold rounds.
    rewrite toggles_flat_round_fst, toggles_flat_round_snd by done.
    rewrite map_map. apply map_ext. intros k. cbn [fst snd]. f_equal.
    by destruct (level w (indicator_line Bedroom)),
                (level w (indicator_line LivingRoom)), (Nat.even k).
Qed.

Lemma heartbeat_keeps_relative_phase_witness :
  booted demo_globals demo_world /\
  exists w',
    exec (heartbeat demo_globals 3) demo_world = Some w' /\
    xorb (level w' (indicator_line Bedroom)) (level w' (indicator_line LivingRoom)) =
    xorb (level demo_world (indicator_line Bedroom))
         (level demo_world (indicator_line LivingRoom)).
Proof.
  assert (Hb : booted demo_globals demo_world) by (by split).
  split; [exact Hb|].
  destruct (heartbeat_keeps_relative_phase demo_globals 3 demo_world Hb)
    as (w' & Hrun & Hx & _).
  exists w'. split; assumption.
Defined.

(** ** What the handler does, as a function of the pin and of its one read *)

Lemma zone_of_sensor g w z : booted g w -> zone_of g (sensor g z) = Some z.
Proof.
  intros Hb. unfold zone_of.
  rewrite (handler_dispatch g w z (Some Bedroom) (Some LivingRoom) None Hb).
  by destruct z.
Qed.

Lemma zone_of_Some g pin z : zone_of g pin = Some z -> pin = sensor g z.
Proof.
  unfold zone_of. repeat case_decide; intros [= <-]; done.
Qed.

Lemma zone_of_None g pin :
  zone_of g pin = None -> pin <> snsr_bedroom g /\ pin <> snsr_living_room g.
Proof. unfold zone_of. by repeat case_decide. Qed.

Lemma handler_behaviour g pin b w :
  booted g w ->
  debounced w pin = Some b ->
  exists w',
    exec (pir_handler g pin) w = Some w' /\
    same_board w w' /\
    reads (emitted w w') = [(clock w + 100, pin, Z.b2z b)] /\
    prints (emitted w w') = (behaviour g pin b).1 /\
    since (clock w) (all_toggles (emitted w w')) = (behaviour g pin b).2.
Proof.
  intros Hb Hd. unfold behaviour, alerted.
  destruct b; [destruct (zone_of g pin) as [z|] eqn:Hz|].
  - apply zone_of_Some in Hz. subst pin.
    destruct (confirmed_run g z w Hb Hd) as (w' & Hrun & Hev & _ & Hs & _).
    apply emitted_app in Hev.
    exists w'. rewrite Hev, prints_confirmed, reads_confirmed, all_toggles_confirmed.
    do 4 (split; [done|]). cbn [snd]. unfold since.
    rewrite flat_map_concat_map, concat_map, map_map, <- flat_map_concat_map.
    apply flat_map_ext. intros k. cbn. repeat f_equal; lia.
  - apply zone_of_None in Hz.
    destruct (quiet_run g pin true w Hd) as (w' & Hrun & Hev & _ & Hs & _); [by right|].
    apply emitted_app in Hev.
    exists w'. by rewrite Hev.
  - destruct (quiet_run g pin false w Hd) as (w' & Hrun & Hev & _ & Hs & _); [by left|].
    apply emitted_app in Hev.
    exists w'. by rewrite Hev.
Qed.

(** C8: the handler calls [value()] once, on the pin it was given, 100 ms
    after it was entered.  What it prints and which pins it toggles at which
    delays is fixed by the pin and by that one result: two runs with the same
    pin and the same result print the same lines and make the same toggles,
    whatever the boards' input lines do at any other time. *)
Theorem handler_reads_once_and_is_determined g pin b w1 w2 :
  booted g w1 -> booted g w2 ->
  debounced w1 pin = Some b ->
  debounced w2 pin = Some b ->
  exists w1' w2',
    exec (pir_handler g pin) w1 = Some w1' /\
    exec (pir_handler g pin) w2 = Some w2' /\
    reads (emitted w1 w1') = [(clock w1 + 100, pin, Z.b2z b)] /\
    reads (emitted w2 w2') = [(clock w2 + 100, pin, Z.b2z b)] /\
    prints (emitted w1 w1') = prints (emitted w2 w2') /\
    since (clock w1) (all_toggles (emitted w1 w1')) =
    since (clock w2) (all_toggles (emitted w2 w2')).
Proof.
  intros Hb1 Hb2 Hd1 Hd2.
  destruct (handler_behaviour g pin b w1 Hb1 Hd1) as (w1' & Hrun1 & _ & Hr1 & Hp1 & Ht1).
  destruct (handler_behaviour g pin b w2 Hb2 Hd2) as (w2' & Hrun2 & _ & Hr2 & Hp2 & Ht2).
  exists w1', w2'. rewrite Hp1, Hp2, Ht1, Ht2. done.
Qed.

Lemma handler_reads_once_and_is_determined_witness :
  booted demo_globals demo_world /\
  booted demo_globals steady_world /\
  debounced demo_world (snsr_bedroom demo_globals) = Some true /\
  debounced steady_world (snsr_bedroom demo_globals) = Some true /\
  input demo_world 28 600 <> input steady_world 28 1300 /\
  exists w1' w2',
    exec (pir_handler demo_globals (snsr_bedroom demo_globals)) demo_world = Some w1' /\
    exec (pir_handler demo_globals (snsr_bedroom demo_globals)) steady_world = Some w2' /\
    prints (emitted demo_world w1') = prints (emitted steady_world w2') /\
    since (clock demo_world) (all_toggles (emitted demo_world w1')) =
    since (clock steady_world) (all_toggles (emitted steady_world w2')).
Proof.
  assert (Hb1 : booted demo_globals demo_world) by (by split).
  assert (Hb2 : booted demo_globals steady_world) by (by split).
  assert (Hd1 : debounced demo_world (snsr_bedroom demo_globals) = Some true)
    by reflexivity.
  assert (Hd2 : debounced steady_world (snsr_bedroom demo_globals) = Some true)
    by reflexivity.
  split; [exact Hb1|]. split; [exact Hb2|]. split; [exact Hd1|]. split; [exact Hd2|].
  split; [discriminate|].
  destruct (handler_reads_once_and_is_determined demo_globals
              (snsr_bedroom demo_globals) true demo_world steady_world Hb1 Hb2 Hd1 Hd2)
    as (w1' & w2' & Hrun1 & Hrun2 & _ & _ & Hp & Ht).
  exists w1', w2'. repeat split; assumption.
Defined.

(** ** The whole script under interrupts *)

Lemma confirmed_triggers_app g l1 l2 :
  confirmed_triggers g (l1 ++ l2) = confirmed_triggers g l1 ++ confirmed_triggers g l2.
Proof. apply omap_app. Qed.

Lemma confirmed_triggers_rounds g a b period la lb t n :
  confirmed_triggers g (rounds a b period la lb t n) = [].
Proof.
  unfold rounds. induction (seq 0 n) as [|k l IH]; [reflexivity|].
  cbn [flat_map]. by rewrite confirmed_triggers_app, IH.
Qed.

Lemma startup_run inp :
  startup (power_on inp) = Some (demo_globals, started inp).
Proof. vm_compute. reflexivity. Qed.

Lemma started_running inp : running demo_globals (started inp).
Proof.
  split.
  - split; vm_compute; reflexivity.
  - intros p [t Hp]. unfold started in Hp. cbn [irqs] in Hp.
    apply lookup_insert_Some in Hp as [[<- _]|[_ Hp]]; [by exists LivingRoom|].
    apply lookup_insert_Some in Hp as [[<- _]|[_ Hp]]; [by exists Bedroom|].
    by rewrite lookup_empty in Hp.
  - reflexivity.
Qed.

(** A step that adds events without a print or a read keeps the invariant. *)
Lemma running_silent g w w' evs :
  running g w ->
  same_board w w' ->
  trace w' = trace w ++ evs ->
  prints evs = [] ->
  confirmed_triggers g evs = [] ->
  running g w'.
Proof.
  intros [Hb Hi Hp] Hs Htr Hpr Hct. split.
  - by apply (booted_same g w).
  - by rewrite (same_irqs _ _ Hs).
  - by rewrite Htr, prints_app, confirmed_triggers_app, Hpr, Hct, !app_nil_r.
Qed.

Lemma tick_run g pc w :
  running g w ->
  exists w', step g Tick pc w = Some (next_pc pc, w') /\ running g w'.
Proof.
  intros Hr. pose proof (run_booted g w Hr) as Hb.
  unfold step. rewrite bind_run.
  destruct pc as [|[|pc]]; cbn [loop_stmt].
  - rewrite (toggle_run _ _ w (bt_led_bedroom g w Hb)).
    eexists. split; [reflexivity|].
    by eapply running_silent; [exact Hr|..].
  - rewrite (toggle_run _ _ w (bt_led_living_room g w Hb)).
    eexists. split; [reflexivity|].
    by eapply running_silent; [exact Hr|..].
  - unfold time.sleep. rewrite sleep_ms_run.
    eexists. split; [reflexivity|].
    by eapply running_silent; [exact Hr|..].
Qed.

Lemma irq_run g pin pc w :
  running g w ->
  exists w', step g (Irq pin) pc w = Some (pc, w') /\ running g w'.
Proof.
  intros Hr. pose proof (run_booted g w Hr) as Hb.
  unfold step. rewrite bind_run. cbn [get_world].
  destruct (irqs w !! pin) as [t|] eqn:Hirq; [|by exists w].
  destruct (run_irqs g w Hr pin) as [z ->]; [by rewrite Hirq|].
  destruct (sensor_run g z w Hb) as (b & w' & _ & Hrun & Hs & Htr & _).
  unfold exec in Hrun. rewrite bind_run.
  destruct (pir_handler g (sensor g z) w) as [[[] w1]|]; [|discriminate].
  injection Hrun as ->. exists w'. split; [reflexivity|].
  destruct Hr as [_ Hi Hp]. split.
  - by apply (booted_same g w).
  - by rewrite (same_irqs _ _ Hs).
  - rewrite Htr, prints_app, confirmed_triggers_app, Hp, map_app. f_equal.
    destruct b; [|reflexivity].
    rewrite prints_confirmed. unfold confirmed_events.
    rewrite confirmed_triggers_app, confirmed_triggers_rounds, app_nil_r.
    cbn. by rewrite (zone_of_sensor g w z Hb).
Qed.

Lemma schedule_run g sched : forall pc w,
  running g w ->
  exists pc' w', run g sched pc w = Some (pc', w') /\ running g w'.
Proof.
  induction sched as [|a sched IH]; intros pc w Hr; [by exists pc, w|].
  cbn [run]. rewrite bind_run.
  destruct a as [|pin].
  - destruct (tick_run g pc w Hr) as (w1 & -> & Hr1). by apply IH.
  - destruct (irq_run g pin pc w Hr) as (w1 & -> & Hr1). by apply IH.
Qed.

(** Three main-loop steps are one iteration of the loop. *)
Lemma three_ticks g rest w :
  run g (Tick :: Tick :: Tick :: rest) 0%nat w =
  (loop_body g;; run g rest 0%nat) w.
Proof.
  cbn [run]. unfold step, loop_body. rewrite !bind_run. cbn [loop_stmt].
  destruct (Pin.toggle (led_bedroom g) w) as [[[] w1]|]; [|reflexivity].
  rewrite ret_run, !bind_run. cbn [next_pc loop_stmt].
  destruct (Pin.toggle (led_living_room g) w1) as [[[] w2]|]; [|reflexivity].
  rewrite ret_run, !bind_run. cbn [next_pc loop_stmt].
  destruct (time.sleep 1 w2) as [[[] w3]|]; [|reflexivity].
  rewrite ret_run. reflexivity.
Qed.

(** Main-loop steps alone are the heartbeat. *)
Lemma ticks_are_heartbeat g n w :
  run g (concat (replicate n [Tick; Tick; Tick])) 0%nat w =
  (heartbeat g n;; mret 0%nat) w.
Proof.
  revert w. induction n as [|n IH]; intros w; [reflexivity|].
  cbn [replicate concat app heartbeat]. rewrite three_ticks, !bind_run.
  destruct (loop_body g w) as [[[] w1]|]; [|reflexivity].
  rewrite IH. reflexivity.
Qed.

(** C6: a confirmed trigger prints exactly one line, the alert of its zone,
    with the literal texts of the script; and the running script, whatever
    the input lines do and whenever interrupts fire, prints nothing else: its
    console output is one alert line per confirmed read, in order. *)
Theorem console_output_is_one_alert_per_confirmed_trigger :
  alert Bedroom = "ALARM! Motion detected in bedroom!"%string /\
  alert LivingRoom = "ALARM! Motion detected in living room!"%string /\
  (forall g z w,
     booted g w ->
     debounced w (sensor g z) = Some true ->
     exists w',
       exec (pir_handler g (sensor g z)) w = Some w' /\
       prints (emitted w w') = [alert z]) /\
  (forall inp sched,
     exists g w0 pc w',
       startup (power_on inp) = Some (g, w0) /\
       prints (trace w0) = [] /\
       script sched (power_on inp) = Some (pc, w') /\
       prints (trace w') = map alert (confirmed_triggers g (trace w'))).
Proof.
  split; [reflexivity|]. split; [reflexivity|]. split.
  - intros g z w Hb Hhigh.
    destruct (confirmed_run g z w Hb Hhigh) as (w' & Hrun & Hev & _).
    apply emitted_app in Hev.
    exists w'. by rewrite Hev, prints_confirmed.
  - intros inp sched.
    destruct (schedule_run demo_globals sched 0%nat (started inp) (started_running inp))
      as (pc & w' & Hrun & Hr).
    exists demo_globals, (started inp), pc, w'.
    split; [apply startup_run|]. split; [reflexivity|]. split.
    + unfold script. rewrite bind_run, startup_run. exact Hrun.
    + apply (run_prints _ _ Hr).
Qed.

(** On the demo board: the bedroom interrupt at power on is confirmed, the
    living-room interrupt that follows is not. *)
Lemma console_output_is_one_alert_per_confirmed_trigger_witness :
  booted demo_globals demo_world /\
  debounced demo_world (sensor demo_globals Bedroom) = Some true /\
  (exists w',
     exec (pir_handler demo_globals (sensor demo_globals Bedroom)) demo_world = Some w' /\
     prints (emitted demo_world w') = [alert Bedroom]) /\
  (exists g w0 pc w',
     startup (power_on demo_input) = Some (g, w0) /\
     prints (trace w0) = [] /\
     script [Irq 0%nat; Tick; Irq 1%nat; Tick] (power_on demo_input) = Some (pc, w') /\
     prints (trace w') = map alert (confirmed_triggers g (trace w'))).
Proof.
  assert (Hb : booted demo_globals demo_world) by (by split).
  assert (Hh : debounced demo_world (sensor demo_globals Bedroom) = Some true)
    by reflexivity.
  split; [exact Hb|]. split; [exact Hh|].
  destruct console_output_is_one_alert_per_confirmed_trigger as (_ & _ & Hone & Hall).
  split.
  - exact (Hone demo_globals Bedroom demo_world Hb Hh).
  - exact (Hall demo_input [Irq 0%nat; Tick; Irq 1%nat; Tick]).
Defined.

(** * Further properties of the script *)

(** ** The handler as seen by the main loop *)

Lemma handler_frame g pin b w :
  booted g w ->
  debounced w pin = Some b ->
  exists w',
    exec (pir_handler g pin) w = Some w' /\
    clock w' = clock w + match alerted g pin b with Some _ => 1100 | None => 100 end /\
    same_board w w' /\
    forall gp, level w' gp = level w gp.
Proof.
  intros Hb Hd. unfold alerted.
  destruct b; [destruct (zone_of g pin) as [z|] eqn:Hz|].
  - apply zone_of_Some in Hz. subst pin.
    destruct (confirmed_run g z w Hb Hd) as (w' & Hrun & _ & Hclk & Hs & Hl).
    by exists w'.
  - apply zone_of_None in Hz.
    destruct (quiet_run g pin true w Hd) as (w' & Hrun & _ & Hclk & Hs & Hl); [by right|].
    exists w'. do 3 (split; [done|]). intros gp. unfold level. by rewrite Hl.
  - destruct (quiet_run g pin false w Hd) as (w' & Hrun & _ & Hclk & Hs & Hl); [by left|].
    exists w'. do 3 (split; [done|]). intros gp. unfold level. by rewrite Hl.
Qed.

(** X2. The handler keeps the processor for 1100 ms when it raises an alarm (the
    debounce delay and ten pauses of 100 ms) and for 100 ms when it does not:
    a low read, or a pin that is neither sensor. *)
Theorem handler_blocks_for_1100_or_100_ms g pin b w :
  booted g w ->
  debounced w pin = Some b ->
  exists w',
    exec (pir_handler g pin) w = Some w' /\
    clock w' - clock w =
      if b && bool_decide (pin = snsr_bedroom g \/ pin = snsr_living_room g)
      then 1100 else 100.
Proof.
  intros Hb Hd.
  destruct (handler_frame g pin b w Hb Hd) as (w' & Hrun & Hclk & _).
  exists w'. split; [exact Hrun|]. rewrite Hclk. unfold alerted, zone_of.
  destruct b; cbn [andb]; [|lia].
  destruct (decide (pin = snsr_bedroom g)) as [->|H1].
  { rewrite bool_decide_true by auto. lia. }
  destruct (decide (pin = snsr_living_room g)) as [->|H2].
  { rewrite bool_decide_true by auto. lia. }
  rewrite bool_decide_false by (intros [?|?]; done). lia.
Qed.

Lemma handler_blocks_for_1100_or_100_ms_witness :
  booted demo_globals demo_world /\
  debounced demo_world (snsr_bedroom demo_globals) = Some true /\
  exists w',
    exec (pir_handler demo_globals (snsr_bedroom demo_globals)) demo_world = Some w' /\
    clock w' - clock demo_world =
      if true && bool_decide (snsr_bedroom demo_globals = snsr_bedroom demo_globals \/
                              snsr_bedroom demo_globals = snsr_living_room demo_globals)
      then 1100 else 100.
Proof.
  assert (Hb : booted demo_globals demo_world) by (by split).
  assert (Hd : debounced demo_world (snsr_bedroom demo_globals) = Some true)
    by reflexivity.
  split; [exact Hb|]. split; [exact Hd|].
  exact (handler_blocks_for_1100_or_100_ms demo_globals (snsr_bedroom demo_globals)
           true demo_world Hb Hd).
Defined.

(** X3. When the handler returns, every output line is at the level it had when
    the handler was entered, alarm or not: the ten toggles of an alarm come in
    pairs.  In particular a buzzer that was off is off again.  The Pin
    objects and the registered interrupts are untouched. *)
Theorem handler_leaves_the_outputs_as_found g pin b w :
  booted g w ->
  debounced w pin = Some b ->
  exists w',
    exec (pir_handler g pin) w = Some w' /\
    (forall gp, level w' gp = level w gp) /\
    heap w' = heap w /\
    irqs w' = irqs w.
Proof.
  intros Hb Hd.
  destruct (handler_frame g pin b w Hb Hd) as (w' & Hrun & _ & Hs & Hl).
  exists w'. split; [exact Hrun|]. split; [exact Hl|].
  split; [apply (same_heap _ _ Hs) | apply (same_irqs _ _ Hs)].
Qed.

Lemma handler_leaves_the_outputs_as_found_witness :
  booted demo_globals after_beat /\
  debounced after_beat (snsr_living_room demo_globals) = Some true /\
  exists w',
    exec (pir_handler demo_globals (snsr_living_room demo_globals)) after_beat = Some w' /\
    (forall gp, level w' gp = level after_beat gp).
Proof.
  assert (Hb : booted demo_globals after_beat) by (by split).
  assert (Hd : debounced after_beat (snsr_living_room demo_globals) = Some true)
    by reflexivity.
  split; [exact Hb|]. split; [exact Hd|].
  destruct (handler_leaves_the_outputs_as_found demo_globals
              (snsr_living_room demo_globals) true after_beat Hb Hd)
    as (w' & Hrun & Hl & _).
  exists w'. split; assumption.
Defined.

(** ** The levels of the LEDs under the heartbeat *)

(** X4. After [n] uninterrupted iterations each LED is inverted when [n] is odd
    and back at its starting level when [n] is even; every other line, the
    buzzer included, is where it was. *)
Theorem heartbeat_inverts_the_leds_every_iteration g n w :
  booted g w ->
  exists w',
    exec (heartbeat g n) w = Some w' /\
    level w' (indicator_line Bedroom) =
      xorb (Nat.odd n) (level w (indicator_line Bedroom)) /\
    level w' (indicator_line LivingRoom) =
      xorb (Nat.odd n) (level w (indicator_line LivingRoom)) /\
    forall gp,
      gp <> indicator_line Bedroom -> gp <> indicator_line LivingRoom ->
      level w' gp = level w gp.
Proof.
  intros Hb.
  destruct (heartbeat_run g n w Hb) as (w' & Hrun & _ & _ & _ & Hl).
  exists w'. split; [exact Hrun|].
  split; [|split].
  - rewrite Hl, bool_decide_true by auto. by rewrite andb_true_r.
  - rewrite Hl, bool_decide_true by auto. by rewrite andb_true_r.
  - intros gp H1 H2. rewrite Hl, bool_decide_false by (intros [?|?]; done).
    by rewrite andb_false_r.
Qed.

Lemma heartbeat_inverts_the_leds_every_iteration_witness :
  booted demo_globals demo_world /\
  exists w',
    exec (heartbeat demo_globals 3) demo_world = Some w' /\
    level w' (indicator_line Bedroom) =
      xorb (Nat.odd 3) (level demo_world (indicator_line Bedroom)) /\
    level w' (indicator_line LivingRoom) =
      xorb (Nat.odd 3) (level demo_world (indicator_line LivingRoom)).
Proof.
  assert (Hb : booted demo_globals demo_world) by (by split).
  split; [exact Hb|].
  destruct (heartbeat_inverts_the_leds_every_iteration demo_globals 3 demo_world Hb)
    as (w' & Hrun & H1 & H2 & _).
  exists w'. repeat split; assumption.
Defined.

(** ** What every schedule of interrupts preserves *)

Lemma pins_read_app l1 l2 : pins_read (l1 ++ l2) = pins_read l1 ++ pins_read l2.
Proof. unfold pins_read. by rewrite reads_app, map_app. Qed.

Lemma sensor_interrupts_cons g a sched :
  sensor_interrupts g (a :: sched) =
  sensor_interrupts g [a] ++ sensor_interrupts g sched.
Proof. apply (omap_app _ [a] sched). Qed.

(** A step of the main loop: which line it inverts. *)
Lemma tick_levels g pc w :
  booted g w ->
  exists w',
    step g Tick pc w = Some (next_pc pc, w') /\
    irqs w' = irqs w /\
    pins_read (trace w') = pins_read (trace w) /\
    forall gp, level w' gp =
      xorb (bool_decide (pc = 0%nat /\ gp = indicator_line Bedroom \/
                         pc = 1%nat /\ gp = indicator_line LivingRoom))
           (level w gp).
Proof.
  intros Hb. unfold step. rewrite bind_run.
  destruct pc as [|[|pc]]; cbn [loop_stmt].
  - rewrite (toggle_run _ _ w (bt_led_bedroom g w Hb)).
    eexists. split; [reflexivity|]. split; [reflexivity|]. split.
    + cbn [set_level emit trace]. by rewrite pins_read_app, app_nil_r.
    + intros gp. rewrite level_set_level, level_emit. cbn [machine.id].
      destruct (decide (15 = gp)) as [<-|Hne].
      * by rewrite bool_decide_true by auto.
      * by rewrite bool_decide_false by (intros [[_ ?]|[? _]]; done).
  - rewrite (toggle_run _ _ w (bt_led_living_room g w Hb)).
    eexists. split; [reflexivity|]. split; [reflexivity|]. split.
    + cbn [set_level emit trace]. by rewrite pins_read_app, app_nil_r.
    + intros gp. rewrite level_set_level, level_emit. cbn [machine.id].
      destruct (decide (11 = gp)) as [<-|Hne].
      * by rewrite bool_decide_true by auto.
      * by rewrite bool_decide_false by (intros [[? _]|[_ ?]]; done).
  - unfold time.sleep. rewrite sleep_ms_run.
    eexists. split; [reflexivity|]. split; [reflexivity|]. split.
    + cbn [advance emit trace]. by rewrite pins_read_app, app_nil_r.
    + intros gp. rewrite level_advance, level_emit.
      by rewrite bool_decide_false by (intros [[? _]|[? _]]; done).
Qed.

Lemma tick_steady g pc w :
  steady g pc w ->
  exists w',
    step g Tick pc w = Some (next_pc pc, w') /\
    steady g (next_pc pc) w' /\
    pins_read (trace w') = pins_read (trace w).
Proof.
  intros [Hr Hab Hal Hpc Hbz Hleds].
  destruct (tick_run g pc w Hr) as (w' & Hstep & Hr').
  destruct (tick_levels g pc w (run_booted g w Hr)) as (w2 & Hstep2 & Hi & Hp & Hl).
  rewrite Hstep in Hstep2. injection Hstep2 as <-.
  exists w'. split; [exact Hstep|]. split; [|exact Hp].
  split; try done.
  - by rewrite Hi.
  - by rewrite Hi.
  - destruct pc as [|[|pc]]; cbn; lia.
  - rewrite Hl, Hbz. by rewrite bool_decide_false by (intros [[_ ?]|[_ ?]]; done).
  - rewrite !Hl. revert Hleds.
    destruct pc as [|[|[|pc]]]; [| | |lia]; cbn [next_pc];
      rewrite ?(bool_decide_true (_ \/ _)) by (cbn; auto);
      rewrite ?(bool_decide_false (_ \/ _)) by (cbn; intros [[? ?]|[? ?]]; done);
      rewrite ?(bool_decide_true (_ = _)) by done;
      rewrite ?(bool_decide_false (_ = _)) by done;
      by destruct (level w (indicator_line Bedroom)),
                  (level w (indicator_line LivingRoom)).
Qed.

Lemma irq_steady g pin pc w :
  steady g pc w ->
  exists w',
    step g (Irq pin) pc w = Some (pc, w') /\
    steady g pc w' /\
    pins_read (trace w') = pins_read (trace w) ++ sensor_interrupts g [Irq pin].
Proof.
  intros [Hr Hab Hal Hpc Hbz Hleds]. pose proof (run_booted g w Hr) as Hb.
  destruct (irq_run g pin pc w Hr) as (w' & Hstep & Hr').
  exists w'. split; [exact Hstep|].
  revert Hstep. unfold step. rewrite bind_run. cbn [get_world].
  destruct (irqs w !! pin) as [t|] eqn:Hirq.
  - destruct (run_irqs g w Hr pin) as [z ->]; [by rewrite Hirq|].
    destruct (sensor_run g z w Hb) as (b & w2 & _ & Hrun & Hs & Htr & Hl).
    unfold exec in Hrun. rewrite bind_run.
    destruct (pir_handler g (sensor g z) w) as [[[] w1]|]; [|discriminate].
    injection Hrun as ->. intros [= <-].
    split.
    + split; try done; rewrite ?(same_irqs _ _ Hs), ?Hl; done.
    + rewrite Htr, pins_read_app. f_equal.
      assert (Hsi : sensor_interrupts g [Irq (sensor g z)] = [sensor g z]).
      { unfold sensor_interrupts. cbn. by rewrite (zone_of_sensor g w z Hb). }
      rewrite Hsi. destruct b; [|reflexivity].
      unfold pins_read. by rewrite reads_confirmed.
  - intros [= <-]. split; [by split|].
    assert (Hz : zone_of g pin = None).
    { unfold zone_of. rewrite !decide_False; [done|..]; intros ->; congruence. }
    unfold sensor_interrupts. cbn. by rewrite Hz, app_nil_r.
Qed.

Lemma schedule_steady g sched : forall pc w,
  steady g pc w ->
  exists pc' w',
    run g sched pc w = Some (pc', w') /\
    steady g pc' w' /\
    pins_read (trace w') = pins_read (trace w) ++ sensor_interrupts g sched.
Proof.
  induction sched as [|a sched IH]; intros pc w Hs.
  { exists pc, w. by rewrite app_nil_r. }
  cbn [run]. rewrite bind_run, sensor_interrupts_cons.
  destruct a as [|pin].
  - destruct (tick_steady g pc w Hs) as (w1 & -> & Hs1 & Hp1).
    destruct (IH _ _ Hs1) as (pc' & w' & Hrun & Hs' & Hp').
    exists pc', w'. by rewrite Hp', Hp1.
  - destruct (irq_steady g pin pc w Hs) as (w1 & -> & Hs1 & Hp1).
    destruct (IH _ _ Hs1) as (pc' & w' & Hrun & Hs' & Hp').
    exists pc', w'. by rewrite Hp', Hp1, app_assoc.
Qed.

Lemma started_steady inp : steady demo_globals 0 (started inp).
Proof.
  split; [apply started_running| | | | |]; try reflexivity.
  cbn. lia.
Qed.

(** The script from power on, under any schedule: where it ends up. *)
Lemma script_steady inp sched :
  exists pc w',
    script sched (power_on inp) = Some (pc, w') /\
    steady demo_globals pc w' /\
    pins_read (trace w') = sensor_interrupts demo_globals sched.
Proof.
  destruct (schedule_steady demo_globals sched 0%nat (started inp) (started_steady inp))
    as (pc & w' & Hrun & Hs & Hp).
  exists pc, w'. split; [|by split].
  unfold script. by rewrite bind_run, startup_run.
Qed.

(** X5. From power on, whatever the input lines do and whenever interrupts fire,
    the script never raises and the buzzer is off whenever the main loop has
    control: every alarm leaves it as it found it and the loop never drives
    it. *)
Theorem buzzer_is_off_whenever_the_loop_runs inp sched :
  exists pc w',
    script sched (power_on inp) = Some (pc, w') /\
    level w' buzzer_line = false.
Proof.
  destruct (script_steady inp sched) as (pc & w' & Hrun & Hs & _).
  exists pc, w'. split; [exact Hrun|]. apply (st_buzzer _ _ _ Hs).
Qed.

(** X6. Alarms do not disturb the heartbeat: under any schedule the two LEDs
    show the same level whenever the main loop is at the top of its body or
    at its sleep, and opposite levels only between its two toggles. *)
Theorem leds_agree_outside_the_two_toggles inp sched :
  exists pc w',
    script sched (power_on inp) = Some (pc, w') /\
    (pc <= 2)%nat /\
    level w' (indicator_line Bedroom) =
      if decide (pc = 1%nat) then negb (level w' (indicator_line LivingRoom))
      else level w' (indicator_line LivingRoom).
Proof.
  destruct (script_steady inp sched) as (pc & w' & Hrun & Hs & _).
  exists pc, w'. split; [exact Hrun|]. split; [apply (st_pc _ _ _ Hs)|].
  pose proof (st_leds _ _ _ Hs) as Hx. revert Hx.
  destruct (decide (pc = 1%nat)) as [->|Hne].
  - rewrite bool_decide_true by done.
    by destruct (level w' (indicator_line Bedroom)),
                (level w' (indicator_line LivingRoom)).
  - rewrite bool_decide_false by done.
    by destruct (level w' (indicator_line Bedroom)),
                (level w' (indicator_line LivingRoom)).
Qed.

(** X7. The alarm stays armed: under any schedule the five globals still name
    the pins created at start-up and the rising-edge handler is registered on
    the two sensors and on no other pin. *)
Theorem alarm_stays_armed inp sched :
  exists g w0 pc w',
    startup (power_on inp) = Some (g, w0) /\
    script sched (power_on inp) = Some (pc, w') /\
    booted g w' /\
    forall p, irqs w' !! p =
      if decide (p = snsr_bedroom g \/ p = snsr_living_room g)
      then Some machine.IRQ_RISING else None.
Proof.
  destruct (script_steady inp sched) as (pc & w' & Hrun & Hs & _).
  exists demo_globals, (started inp), pc, w'.
  split; [apply startup_run|]. split; [exact Hrun|].
  pose proof (st_running _ _ _ Hs) as Hr.
  split; [apply (run_booted _ _ Hr)|].
  intros p. destruct (decide _) as [[-> | ->]|Hn].
  - apply (st_armed_bedroom _ _ _ Hs).
  - apply (st_armed_living_room _ _ _ Hs).
  - destruct (irqs w' !! p) as [t|] eqn:Hp; [|reflexivity].
    destruct (run_irqs _ _ Hr p) as [z ->]; [by rewrite Hp|].
    destruct Hn. destruct z; auto.
Qed.

(** X8. The script calls [value()] once for every interrupt of a sensor, on that
    sensor and in the order of the interrupts, and at no other time. *)
Theorem one_read_per_sensor_interrupt inp sched :
  exists g w0 pc w',
    startup (power_on inp) = Some (g, w0) /\
    script sched (power_on inp) = Some (pc, w') /\
    pins_read (trace w') = sensor_interrupts g sched.
Proof.
  destruct (script_steady inp sched) as (pc & w' & Hrun & _ & Hp).
  exists demo_globals, (started inp), pc, w'.
  split; [apply startup_run|]. by split.
Qed.

(** ** The buzzer sounds only with an alert *)

(** The event of a step of the main loop. *)
Lemma tick_trace g pc w :
  booted g w ->
  exists w' e,
    step g Tick pc w = Some (next_pc pc, w') /\
    trace w' = trace w ++ [(clock w, e)] /\
    ((exists lvl, e = Toggle (led_bedroom g) lvl) \/
     (exists lvl, e = Toggle (led_living_room g) lvl) \/
     e = Sleep 1000).
Proof.
  intros Hb. unfold step. rewrite bind_run.
  destruct pc as [|[|pc]]; cbn [loop_stmt].
  - rewrite (toggle_run _ _ w (bt_led_bedroom g w Hb)).
    eexists _, _. split; [reflexivity|]. split; [reflexivity|]. left. by eexists.
  - rewrite (toggle_run _ _ w (bt_led_living_room g w Hb)).
    eexists _, _. split; [reflexivity|]. split; [reflexivity|]. right. left. by eexists.
  - unfold time.sleep. rewrite sleep_ms_run.
    eexists _, _. split; [reflexivity|]. split; [reflexivity|]. by right; right.
Qed.

Lemma step_buzzer_count g a pc w :
  running g w ->
  exists pc' w' k,
    step g a pc w = Some (pc', w') /\
    running g w' /\
    length (toggles (buzzer g) (trace w')) =
      (length (toggles (buzzer g) (trace w)) + 10 * k)%nat /\
    length (prints (trace w')) = (length (prints (trace w)) + k)%nat.
Proof.
  intros Hr. pose proof (run_booted g w Hr) as Hb.
  destruct (booted_distinct g w Hb) as (_ & _ & Hlb & Hrb).
  destruct a as [|pin].
  - destruct (tick_run g pc w Hr) as (w' & Hstep & Hr').
    destruct (tick_trace g pc w Hb) as (w2 & e & Hstep2 & Htr & He).
    rewrite Hstep in Hstep2. injection Hstep2 as <-.
    exists (next_pc pc), w', 0%nat. split; [exact Hstep|]. split; [exact Hr'|].
    rewrite Htr, toggles_app, prints_app, !length_app.
    destruct He as [[lvl ->]|[[lvl ->]| ->]]; unfold toggles; cbn;
      rewrite ?decide_False by done; cbn; lia.
  - destruct (irq_run g pin pc w Hr) as (w' & Hstep & Hr').
    revert Hstep. unfold step. rewrite bind_run. cbn [get_world].
    destruct (irqs w !! pin) as [t|] eqn:Hirq.
    + destruct (run_irqs g w Hr pin) as [z ->]; [by rewrite Hirq|].
      destruct (sensor_run g z w Hb) as (b & w2 & _ & Hrun & _ & Htr & _).
      unfold exec in Hrun. rewrite bind_run.
      destruct (pir_handler g (sensor g z) w) as [[[] w1]|] eqn:Hh; [|discriminate].
      injection Hrun as ->. intros [= <-].
      exists pc, w2, (if b then 1 else 0)%nat.
      split; [reflexivity|]. split; [exact Hr'|].
      rewrite Htr, toggles_app, prints_app, !length_app.
      destruct b; [|cbn; lia].
      rewrite prints_confirmed, toggles_confirmed_buzzer
        by (by eapply booted_indicator_not_buzzer).
      rewrite length_map, length_seq. cbn. lia.
    + intros [= <-]. exists pc, w, 0%nat. split; [reflexivity|]. split; [exact Hr|]. lia.
Qed.

Lemma schedule_buzzer_count g sched : forall pc w,
  running g w ->
  exists pc' w' k,
    run g sched pc w = Some (pc', w') /\
    length (toggles (buzzer g) (trace w')) =
      (length (toggles (buzzer g) (trace w)) + 10 * k)%nat /\
    length (prints (trace w')) = (length (prints (trace w)) + k)%nat.
Proof.
  induction sched as [|a sched IH]; intros pc w Hr.
  { exists pc, w, 0%nat. split; [reflexivity|]. lia. }
  cbn [run]. rewrite bind_run.
  destruct (step_buzzer_count g a pc w Hr) as (pc1 & w1 & k1 & -> & Hr1 & Ht1 & Hp1).
  destruct (IH pc1 w1 Hr1) as (pc' & w' & k & Hrun & Ht & Hp).
  exists pc', w', (k1 + k)%nat. split; [exact Hrun|]. lia.
Qed.

(** X9. Under any schedule the buzzer is toggled exactly ten times for every
    line the script prints: it never sounds without an alert and no alert goes
    without its ten toggles. *)
Theorem ten_buzzer_toggles_per_alert inp sched :
  exists g w0 pc w',
    startup (power_on inp) = Some (g, w0) /\
    script sched (power_on inp) = Some (pc, w') /\
    length (toggles (buzzer g) (trace w')) = (10 * length (prints (trace w')))%nat.
Proof.
  destruct (schedule_buzzer_count demo_globals sched 0%nat (started inp)
              (started_running inp)) as (pc & w' & k & Hrun & Ht & Hp).
  exists demo_globals, (started inp), pc, w'.
  split; [apply startup_run|]. split.
  - unfold script. by rewrite bind_run, startup_run.
  - rewrite Ht, Hp. cbn. lia.
Qed.

(** ** One alarm after another *)

Lemma since_confirmed_events g z li lb t :
  since t (confirmed_events g z li lb t) = confirmed_events g z li lb 0.
Proof.
  unfold since, confirmed_events, rounds, round. cbn.
  repeat (f_equal; try lia).
Qed.

(** X10. An alarm can be repeated: when the sensor is high again 100 ms after an
    alarm has ended, a second run of the handler emits the events of the
    first, 1100 ms later, down to the levels it drives. *)
Theorem a_second_alarm_repeats_the_first g z w :
  booted g w ->
  debounced w (sensor g z) = Some true ->
  input w (sensor_line z) (clock w + 1200) = true ->
  exists w1 w2,
    exec (pir_handler g (sensor g z)) w = Some w1 /\
    exec (pir_handler g (sensor g z)) w1 = Some w2 /\
    clock w1 = clock w + 1100 /\
    since (clock w1) (emitted w1 w2) = since (clock w) (emitted w w1).
Proof.
  intros Hb Hd Hin.
  destruct (confirmed_run g z w Hb Hd) as (w1 & Hrun1 & Htr1 & Hclk1 & Hs1 & Hl1).
  pose proof (booted_same g w w1 Hs1 Hb) as Hb1.
  assert (Hd1 : debounced w1 (sensor g z) = Some true).
  { rewrite (debounced_sensor g w1 z Hb1), (same_input _ _ Hs1), Hclk1.
    replace (clock w + 1100 + 100) with (clock w + 1200) by lia. by rewrite Hin. }
  destruct (confirmed_run g z w1 Hb1 Hd1) as (w2 & Hrun2 & Htr2 & _).
  exists w1, w2. split; [exact Hrun1|]. split; [exact Hrun2|]. split; [exact Hclk1|].
  rewrite (emitted_app _ _ _ Htr1), (emitted_app _ _ _ Htr2), !Hl1.
  by rewrite !since_confirmed_events.
Qed.

Lemma a_second_alarm_repeats_the_first_witness :
  booted demo_globals steady_world /\
  debounced steady_world (sensor demo_globals Bedroom) = Some true /\
  input steady_world (sensor_line Bedroom) (clock steady_world + 1200) = true /\
  exists w1 w2,
    exec (pir_handler demo_globals (sensor demo_globals Bedroom)) steady_world = Some w1 /\
    exec (pir_handler demo_globals (sensor demo_globals Bedroom)) w1 = Some w2 /\
    clock w1 = clock steady_world + 1100 /\
    since (clock w1) (emitted w1 w2) = since (clock steady_world) (emitted steady_world w1).
Proof.
  assert (Hb : booted demo_globals steady_world) by (by split).
  assert (Hd : debounced steady_world (sensor demo_globals Bedroom) = Some true)
    by reflexivity.
  assert (Hin : input steady_world (sensor_line Bedroom) (clock steady_world + 1200) = true)
    by reflexivity.
  split; [exact Hb|]. split; [exact Hd|]. split; [exact Hin|].
  exact (a_second_alarm_repeats_the_first demo_globals Bedroom steady_world Hb Hd Hin).
Defined.
